(** * Yarns voice: a shallow embedding of [yarns/voice.cc]

    The per-voice control core of the MIDI-to-CV interface: note to DAC code
    quantization over a per-octave calibration table, the portamento phase
    accumulator, the triangle vibrato LFO, the trigger countdowns and the
    controller state.  Machine integers are [Z] with the wrap-around of
    their C++ type written out at every operation. *)

From Stdlib Require Import ZArith Lia Bool.
From stdpp Require Import base list.
From Equations Require Import Equations.

Local Open Scope Z_scope.

(** ** Fixed-width integers *)

Module Int.

Definition wrap_u8 (z : Z) : Z := z mod 2 ^ 8.
Definition wrap_u16 (z : Z) : Z := z mod 2 ^ 16.
Definition wrap_u32 (z : Z) : Z := z mod 2 ^ 32.
Definition wrap_i32 (z : Z) : Z := (z + 2 ^ 31) mod 2 ^ 32 - 2 ^ 31.

Definition is_u8 (z : Z) : Prop := 0 <= z < 2 ^ 8.
Definition is_u16 (z : Z) : Prop := 0 <= z < 2 ^ 16.
Definition is_u32 (z : Z) : Prop := 0 <= z < 2 ^ 32.
Definition is_i16 (z : Z) : Prop := - 2 ^ 15 <= z < 2 ^ 15.
Definition is_i32 (z : Z) : Prop := - 2 ^ 31 <= z < 2 ^ 31.

(** [abs] of <cstdlib> on a 32-bit [int]. *)
Definition abs_i32 (z : Z) : Z := wrap_i32 (Z.abs z).

End Int.

Import Int.

(** ** Constants of [voice.cc] *)

Definition kOctave : Z := 12 ≪ 7.
Definition kMaxNote : Z := 120 ≪ 7.

(** ** Arrays

    A C++ array is a list.  A read is total, with 0 outside the list (the
    C++ program has no defined result there); the indices that
    [NoteToDacCode] uses are shown to be inside the table separately.  A
    write is stdpp's list insert. *)

Definition at_index (t : list Z) (i : Z) : Z := default 0 (t !! Z.to_nat i).

(** [std::fill(&a[first], &a[first + count], x)]. *)
Fixpoint fill_from (a : list Z) (first count : nat) (x : Z) : list Z :=
  match count with
  | O => a
  | S k => fill_from (<[first := x]> a) (S first) k x
  end.

Definition fill (a : list Z) (first last : nat) (x : Z) : list Z :=
  fill_from a first (last - first) x.

(** ** [Voice::NoteToDacCode] *)

(** The loop [while (note >= kOctave) { note -= kOctave; ++octave; }] on
    the [int32_t note] and the [uint8_t octave]; it returns both. *)
Equations? octave_loop (note octave : Z) : Z * Z by wf (Z.to_nat note) lt :=
  octave_loop note octave with Z_ge_dec note kOctave => {
    | left _ := octave_loop (note - kOctave) (wrap_u8 (octave + 1));
    | right _ := (note, octave) }.
Proof. change kOctave with 1536 in *. lia. Qed.

(** The two [if]s at the head of the function. *)
Definition clamp_note (note : Z) : Z :=
  let note := if note <=? 0 then 0 else note in
  if note >=? kMaxNote then kMaxNote - 1 else note.

(** The value of [octave] when the table is read. *)
Definition octave_index (note : Z) : Z :=
  snd (octave_loop (clamp_note note) 0).

Definition NoteToDacCode (calibrated_dac_code_ : list Z) (note : Z) : Z :=
  let in_octave := fst (octave_loop (clamp_note note) 0) in
  let octave := octave_index note in
  let a := at_index calibrated_dac_code_ octave in
  let b := at_index calibrated_dac_code_ (octave + 1) in
  wrap_u16 (wrap_i32 (a + wrap_i32 (wrap_i32 (b - a) * in_octave) ÷ kOctave)).

(** The last line of [NoteToDacCode] on unbounded integers. *)
Definition interpolate (a b note : Z) : Z := a + ((b - a) * note) ÷ kOctave.

(** Monotonic tables, in either direction. *)
Definition table_nondecreasing (t : list Z) : Prop :=
  forall i, 0 <= i -> i + 1 < Z.of_nat (length t) ->
    at_index t i <= at_index t (i + 1).

Definition table_nonincreasing (t : list Z) : Prop :=
  forall i, 0 <= i -> i + 1 < Z.of_nat (length t) ->
    at_index t (i + 1) <= at_index t i.

(** ** The vibrato LFO

    [lfo_phase_ < 1UL << 31 ? -32768 + (lfo_phase_ >> 15)
                            : 0x17fff - (lfo_phase_ >> 15)]:
    both arms are computed on [uint32_t], the result is stored in an
    [int32_t]. *)
Definition lfo_triangle (lfo_phase : Z) : Z :=
  wrap_i32 (if lfo_phase <? 1 ≪ 31
            then wrap_u32 (-32768 + (lfo_phase ≫ 15))
            else wrap_u32 (98303 - (lfo_phase ≫ 15))).

(** Modelled from the spec: the macro [CONSTRAIN] comes from stmlib, which
    is not among the sources.  The spec has the increment "clamped to a
    minimum of 1 [...] and to the maximum representable positive
    increment". *)
Definition CONSTRAIN (var min max : Z) : Z :=
  if var <? min then min else if var >? max then max else var.

(** ** Declarations outside [voice.cc]

    [voice.h], [resources.h] and stmlib are not among the sources: the
    table size, the controller numbers, the trigger shapes, the lookup
    tables and the two [Interpolate824] overloads are parameters.  A table
    is a function of its index; the [uint32_t] tables hold 32-bit
    values. *)
Class Resources := {
  kNumOctaves : nat;
  kCCModulationWheelMsb : Z;
  kCCBreathController : Z;
  kCCFootPedalMsb : Z;
  TRIGGER_SHAPE_SQUARE : Z;
  TRIGGER_SHAPE_LINEAR : Z;
  TRIGGER_SHAPE_EXPONENTIAL : Z;
  lut_portamento_increments : Z -> Z;
  lut_lfo_increments : Z -> Z;
  lut_env_expo : Z -> Z;
  waveform_table : Z -> Z -> Z;
  Interpolate824_u16 : (Z -> Z) -> Z -> Z;
  Interpolate824_s16 : (Z -> Z) -> Z -> Z;
  lut_portamento_increments_u32 : forall i, is_u32 (lut_portamento_increments i);
  lut_lfo_increments_u32 : forall i, is_u32 (lut_lfo_increments i)
}.

(** ** The voice

    The fields of [class Voice] that [voice.cc] reads or writes.  Their
    declarations are in [voice.h]; the widths taken here are stated by
    [well_typed] below: 32-bit unsigned phase accumulators and increments
    as in the spec's data model, 32-bit signed pitches, a signed 16-bit
    pitch bend, 16-bit output codes and trigger pulse countdown, 8-bit
    settings, controller values and retrigger countdown.  [oscillator_]
    keeps the two arguments of its last [Init]. *)
Record Voice := {
  note_ : Z;
  note_source_ : Z;
  note_target_ : Z;
  note_portamento_ : Z;
  tuning_ : Z;
  gate_ : bool;
  dirty_ : bool;
  note_dac_code_ : Z;
  calibrated_dac_code_ : list Z;
  mod_pitch_bend_ : Z;
  mod_wheel_ : Z;
  mod_aux_ : list Z;
  mod_velocity_ : Z;
  pitch_bend_range_ : Z;
  vibrato_range_ : Z;
  modulation_rate_ : Z;
  lfo_phase_ : Z;
  lfo_pll_phase_increment_ : Z;
  portamento_phase_ : Z;
  portamento_phase_increment_ : Z;
  portamento_exponential_shape_ : bool;
  retrigger_delay_ : Z;
  trigger_pulse_ : Z;
  trigger_phase_increment_ : Z;
  trigger_phase_ : Z;
  trigger_duration_ : Z;
  trigger_shape_ : Z;
  trigger_scale_ : bool;
  oscillator_ : Z * Z
}.

(** Every field holds a value of its C++ type. *)
Record well_typed `{Resources} (v : Voice) : Prop := {
  wt_note : is_i32 (note_ v);
  wt_note_source : is_i32 (note_source_ v);
  wt_note_target : is_i32 (note_target_ v);
  wt_note_portamento : is_i32 (note_portamento_ v);
  wt_tuning : is_i32 (tuning_ v);
  wt_note_dac_code : is_u16 (note_dac_code_ v);
  wt_calibrated_dac_code : Forall is_u16 (calibrated_dac_code_ v);
  wt_calibrated_size : length (calibrated_dac_code_ v) = kNumOctaves;
  wt_mod_pitch_bend : is_i16 (mod_pitch_bend_ v);
  wt_mod_wheel : is_u8 (mod_wheel_ v);
  wt_mod_aux : Forall is_u16 (mod_aux_ v);
  wt_mod_aux_size : length (mod_aux_ v) = 8%nat;
  wt_mod_velocity : is_u8 (mod_velocity_ v);
  wt_pitch_bend_range : is_u8 (pitch_bend_range_ v);
  wt_vibrato_range : is_u8 (vibrato_range_ v);
  wt_modulation_rate : is_u8 (modulation_rate_ v);
  wt_lfo_phase : is_u32 (lfo_phase_ v);
  wt_lfo_pll_phase_increment : is_u32 (lfo_pll_phase_increment_ v);
  wt_portamento_phase : is_u32 (portamento_phase_ v);
  wt_portamento_phase_increment : is_u32 (portamento_phase_increment_ v);
  wt_retrigger_delay : is_u8 (retrigger_delay_ v);
  wt_trigger_pulse : is_u16 (trigger_pulse_ v);
  wt_trigger_phase_increment : is_u32 (trigger_phase_increment_ v);
  wt_trigger_phase : is_u32 (trigger_phase_ v);
  wt_trigger_duration : is_u8 (trigger_duration_ v);
  wt_trigger_shape : is_u8 (trigger_shape_ v)
}.

(** ** The operations of [voice.cc] *)

Section Operations.

Context `{Resources}.

Definition ResetAllControllers (v : Voice) : Voice :=
  {| note_ := note_ v;
     note_source_ := note_source_ v;
     note_target_ := note_target_ v;
     note_portamento_ := note_portamento_ v;
     tuning_ := tuning_ v;
     gate_ := gate_ v;
     dirty_ := dirty_ v;
     note_dac_code_ := note_dac_code_ v;
     calibrated_dac_code_ := calibrated_dac_code_ v;
     mod_pitch_bend_ := 8192;
     mod_wheel_ := 0;
     mod_aux_ := fill (mod_aux_ v) 0 7 0;
     mod_velocity_ := mod_velocity_ v;
     pitch_bend_range_ := pitch_bend_range_ v;
     vibrato_range_ := vibrato_range_ v;
     modulation_rate_ := modulation_rate_ v;
     lfo_phase_ := lfo_phase_ v;
     lfo_pll_phase_increment_ := lfo_pll_phase_increment_ v;
     portamento_phase_ := portamento_phase_ v;
     portamento_phase_increment_ := portamento_phase_increment_ v;
     portamento_exponential_shape_ := portamento_exponential_shape_ v;
     retrigger_delay_ := retrigger_delay_ v;
     trigger_pulse_ := trigger_pulse_ v;
     trigger_phase_increment_ := trigger_phase_increment_ v;
     trigger_phase_ := trigger_phase_ v;
     trigger_duration_ := trigger_duration_ v;
     trigger_shape_ := trigger_shape_ v;
     trigger_scale_ := trigger_scale_ v;
     oscillator_ := oscillator_ v |}.

(** [for (uint8_t i = 0; i < kNumOctaves; ++i)
       calibrated_dac_code_[i] = 54586 - 5133 * i;] *)
Fixpoint reset_calibration_from (t : list Z) (i count : nat) : list Z :=
  match count with
  | O => t
  | S k =>
      reset_calibration_from
        (<[i := wrap_u16 (54586 - 5133 * Z.of_nat i)]> t) (S i) k
  end.

(** [Init] starts from the object as it is: the fields it does not
    assign keep their value. *)
Definition Init (v : Voice) (reset_calibration : bool) : Voice :=
  let v :=
    ResetAllControllers
      {| note_ := -1;
         note_source_ := 60 ≪ 7;
         note_target_ := 60 ≪ 7;
         note_portamento_ := 60 ≪ 7;
         tuning_ := tuning_ v;
         gate_ := false;
         dirty_ := dirty_ v;
         note_dac_code_ := note_dac_code_ v;
         calibrated_dac_code_ := calibrated_dac_code_ v;
         mod_pitch_bend_ := mod_pitch_bend_ v;
         mod_wheel_ := mod_wheel_ v;
         mod_aux_ := mod_aux_ v;
         mod_velocity_ := 0;
         pitch_bend_range_ := pitch_bend_range_ v;
         vibrato_range_ := vibrato_range_ v;
         modulation_rate_ := modulation_rate_ v;
         lfo_phase_ := lfo_phase_ v;
         lfo_pll_phase_increment_ := lfo_pll_phase_increment_ v;
         portamento_phase_ := portamento_phase_ v;
         portamento_phase_increment_ := portamento_phase_increment_ v;
         portamento_exponential_shape_ := portamento_exponential_shape_ v;
         retrigger_delay_ := retrigger_delay_ v;
         trigger_pulse_ := trigger_pulse_ v;
         trigger_phase_increment_ := trigger_phase_increment_ v;
         trigger_phase_ := trigger_phase_ v;
         trigger_duration_ := trigger_duration_ v;
         trigger_shape_ := trigger_shape_ v;
         trigger_scale_ := trigger_scale_ v;
         oscillator_ := oscillator_ v |} in
  let calibrated_dac_code :=
    if reset_calibration
    then reset_calibration_from (calibrated_dac_code_ v) 0 kNumOctaves
    else calibrated_dac_code_ v in
  {| note_ := note_ v;
     note_source_ := note_source_ v;
     note_target_ := note_target_ v;
     note_portamento_ := note_portamento_ v;
     tuning_ := tuning_ v;
     gate_ := gate_ v;
     dirty_ := false;
     note_dac_code_ := note_dac_code_ v;
     calibrated_dac_code_ := calibrated_dac_code;
     mod_pitch_bend_ := mod_pitch_bend_ v;
     mod_wheel_ := mod_wheel_ v;
     mod_aux_ := mod_aux_ v;
     mod_velocity_ := mod_velocity_ v;
     pitch_bend_range_ := 2;
     vibrato_range_ := 0;
     modulation_rate_ := 0;
     lfo_phase_ := 0;
     lfo_pll_phase_increment_ := lfo_pll_phase_increment_ v;
     portamento_phase_ := 0;
     portamento_phase_increment_ := 1 ≪ 31;
     portamento_exponential_shape_ := false;
     retrigger_delay_ := retrigger_delay_ v;
     trigger_pulse_ := trigger_pulse_ v;
     trigger_phase_increment_ := trigger_phase_increment_ v;
     trigger_phase_ := trigger_phase_ v;
     trigger_duration_ := 2;
     trigger_shape_ := trigger_shape_ v;
     trigger_scale_ := trigger_scale_ v;
     oscillator_ :=
       (wrap_i32 (at_index calibrated_dac_code 3
                  - at_index calibrated_dac_code 8),
        at_index calibrated_dac_code 3) |}.

(** The test [portamento_phase_ < portamento_phase_increment_] of
    [Refresh], taken after the increment was added: the glide ends on
    this tick. *)
Definition portamento_wraps (v : Voice) : bool :=
  wrap_u32 (portamento_phase_ v + portamento_phase_increment_ v)
  <? portamento_phase_increment_ v.

Definition Refresh (v : Voice) : Voice :=
  (* Compute base pitch with portamento. *)
  let portamento_phase :=
    wrap_u32 (portamento_phase_ v + portamento_phase_increment_ v) in
  let wraps := portamento_phase <? portamento_phase_increment_ v in
  let portamento_phase := if wraps then 0 else portamento_phase in
  let portamento_phase_increment :=
    if wraps then 0 else portamento_phase_increment_ v in
  let note_source := if wraps then note_target_ v else note_source_ v in
  let note_target := note_target_ v in
  let portamento_level :=
    wrap_u16 (if portamento_exponential_shape_ v
              then Interpolate824_u16 lut_env_expo portamento_phase
              else portamento_phase ≫ 16) in
  let note :=
    wrap_i32 (note_source
              + (wrap_i32 (wrap_i32 (note_target - note_source)
                           * portamento_level) ≫ 16)) in
  let note_portamento := note in
  (* Add pitch-bend. *)
  let note :=
    wrap_i32 (note
              + (wrap_i32 (wrap_i32 (mod_pitch_bend_ v - 8192)
                           * pitch_bend_range_ v) ≫ 6)) in
  (* Add transposition/fine tuning. *)
  let note := wrap_i32 (note + tuning_ v) in
  (* Add vibrato. *)
  let lfo_phase :=
    if modulation_rate_ v <? 100
    then wrap_u32 (lfo_phase_ v + lut_lfo_increments (modulation_rate_ v))
    else wrap_u32 (lfo_phase_ v + lfo_pll_phase_increment_ v) in
  let lfo := lfo_triangle lfo_phase in
  let note :=
    wrap_i32 (note
              + (wrap_i32 (wrap_i32 (lfo * mod_wheel_ v) * vibrato_range_ v)
                 ≫ 15)) in
  let mod_aux := <[0%nat := wrap_u16 (mod_velocity_ v ≪ 9)]> (mod_aux_ v) in
  let mod_aux := <[1%nat := wrap_u16 (mod_wheel_ v ≪ 9)]> mod_aux in
  let mod_aux :=
    <[5%nat := wrap_u16 (wrap_u16 (mod_pitch_bend_ v) ≪ 2)]> mod_aux in
  let mod_aux :=
    <[6%nat := wrap_u16 (wrap_i32 ((wrap_i32 (lfo * mod_wheel_ v) ≫ 7)
                                   + 32768))]> mod_aux in
  let mod_aux := <[7%nat := wrap_u16 (wrap_i32 (lfo + 32768))]> mod_aux in
  let retrigger_delay :=
    if retrigger_delay_ v =? 0 then retrigger_delay_ v
    else wrap_u8 (retrigger_delay_ v - 1) in
  let trigger_pulse :=
    if trigger_pulse_ v =? 0 then trigger_pulse_ v
    else wrap_u16 (trigger_pulse_ v - 1) in
  let trigger_advanced :=
    wrap_u32 (trigger_phase_ v + trigger_phase_increment_ v) in
  let trigger_wraps := trigger_advanced <? trigger_phase_increment_ v in
  let trigger_phase :=
    if trigger_phase_increment_ v =? 0 then trigger_phase_ v
    else if trigger_wraps then 0 else trigger_advanced in
  let trigger_phase_increment :=
    if trigger_phase_increment_ v =? 0 then trigger_phase_increment_ v
    else if trigger_wraps then 0 else trigger_phase_increment_ v in
  let recompute := negb (note =? note_ v) || dirty_ v in
  {| note_ := if recompute then note else note_ v;
     note_source_ := note_source;
     note_target_ := note_target;
     note_portamento_ := note_portamento;
     tuning_ := tuning_ v;
     gate_ := gate_ v;
     dirty_ := if recompute then false else dirty_ v;
     note_dac_code_ :=
       if recompute then NoteToDacCode (calibrated_dac_code_ v) note
       else note_dac_code_ v;
     calibrated_dac_code_ := calibrated_dac_code_ v;
     mod_pitch_bend_ := mod_pitch_bend_ v;
     mod_wheel_ := mod_wheel_ v;
     mod_aux_ := mod_aux;
     mod_velocity_ := mod_velocity_ v;
     pitch_bend_range_ := pitch_bend_range_ v;
     vibrato_range_ := vibrato_range_ v;
     modulation_rate_ := modulation_rate_ v;
     lfo_phase_ := lfo_phase;
     lfo_pll_phase_increment_ := lfo_pll_phase_increment_ v;
     portamento_phase_ := portamento_phase;
     portamento_phase_increment_ := portamento_phase_increment;
     portamento_exponential_shape_ := portamento_exponential_shape_ v;
     retrigger_delay_ := retrigger_delay;
     trigger_pulse_ := trigger_pulse;
     trigger_phase_increment_ := trigger_phase_increment;
     trigger_phase_ := trigger_phase;
     trigger_duration_ := trigger_duration_ v;
     trigger_shape_ := trigger_shape_ v;
     trigger_scale_ := trigger_scale_ v;
     oscillator_ := oscillator_ v |}.

(** The divisor [delta] of the linear branch of [NoteOn]:
    [uint32_t delta = abs(note_target_ - note_source_) + 1]. *)
Definition glide_delta (note_target note_source : Z) : Z :=
  wrap_u32 (wrap_i32 (abs_i32 (wrap_i32 (note_target - note_source)) + 1)).

(** The increment of the linear branch before [CONSTRAIN]:
    [(1536 * (base_increment >> 11) / delta) << 11] on [uint32_t]. *)
Definition linear_increment (base_increment delta : Z) : Z :=
  wrap_u32 ((wrap_u32 (1536 * (base_increment ≫ 11)) / delta) ≪ 11).

Definition NoteOn (v : Voice) (note velocity portamento : Z)
    (trigger : bool) : Voice :=
  let note_source := note_portamento_ v in
  let note_target := note in
  let note_source := if portamento =? 0 then note_target else note_source in
  let portamento_phase_increment :=
    if portamento <=? 50
    then lut_portamento_increments (portamento ≪ 1)
    else
      let base_increment :=
        lut_portamento_increments ((portamento - 51) ≪ 1) in
      let delta := glide_delta note_target note_source in
      CONSTRAIN (linear_increment base_increment delta) 1 2147483647 in
  {| note_ := note_ v;
     note_source_ := note_source;
     note_target_ := note_target;
     note_portamento_ := note_portamento_ v;
     tuning_ := tuning_ v;
     gate_ := true;
     dirty_ := dirty_ v;
     note_dac_code_ := note_dac_code_ v;
     calibrated_dac_code_ := calibrated_dac_code_ v;
     mod_pitch_bend_ := mod_pitch_bend_ v;
     mod_wheel_ := mod_wheel_ v;
     mod_aux_ := mod_aux_ v;
     mod_velocity_ := velocity;
     pitch_bend_range_ := pitch_bend_range_ v;
     vibrato_range_ := vibrato_range_ v;
     modulation_rate_ := modulation_rate_ v;
     lfo_phase_ := lfo_phase_ v;
     lfo_pll_phase_increment_ := lfo_pll_phase_increment_ v;
     portamento_phase_ := 0;
     portamento_phase_increment_ := portamento_phase_increment;
     portamento_exponential_shape_ := portamento <=? 50;
     retrigger_delay_ :=
       if gate_ v && trigger then 2 else retrigger_delay_ v;
     trigger_pulse_ :=
       if trigger then wrap_u16 (trigger_duration_ v * 8)
       else trigger_pulse_ v;
     trigger_phase_increment_ :=
       if trigger then lut_portamento_increments (trigger_duration_ v)
       else trigger_phase_increment_ v;
     trigger_phase_ := if trigger then 0 else trigger_phase_ v;
     trigger_duration_ := trigger_duration_ v;
     trigger_shape_ := trigger_shape_ v;
     trigger_scale_ := trigger_scale_ v;
     oscillator_ := oscillator_ v |}.

Definition NoteOff (v : Voice) : Voice :=
  {| note_ := note_ v;
     note_source_ := note_source_ v;
     note_target_ := note_target_ v;
     note_portamento_ := note_portamento_ v;
     tuning_ := tuning_ v;
     gate_ := false;
     dirty_ := dirty_ v;
     note_dac_code_ := note_dac_code_ v;
     calibrated_dac_code_ := calibrated_dac_code_ v;
     mod_pitch_bend_ := mod_pitch_bend_ v;
     mod_wheel_ := mod_wheel_ v;
     mod_aux_ := mod_aux_ v;
     mod_velocity_ := mod_velocity_ v;
     pitch_bend_range_ := pitch_bend_range_ v;
     vibrato_range_ := vibrato_range_ v;
     modulation_rate_ := modulation_rate_ v;
     lfo_phase_ := lfo_phase_ v;
     lfo_pll_phase_increment_ := lfo_pll_phase_increment_ v;
     portamento_phase_ := portamento_phase_ v;
     portamento_phase_increment_ := portamento_phase_increment_ v;
     portamento_exponential_shape_ := portamento_exponential_shape_ v;
     retrigger_delay_ := retrigger_delay_ v;
     trigger_pulse_ := trigger_pulse_ v;
     trigger_phase_increment_ := trigger_phase_increment_ v;
     trigger_phase_ := trigger_phase_ v;
     trigger_duration_ := trigger_duration_ v;
     trigger_shape_ := trigger_shape_ v;
     trigger_scale_ := trigger_scale_ v;
     oscillator_ := oscillator_ v |}.

(** The [switch] tries its labels in order; a controller that matches
    none leaves the voice as it is. *)
Definition ControlChange (v : Voice) (controller value : Z) : Voice :=
  let mod_wheel :=
    if controller =? kCCModulationWheelMsb then value else mod_wheel_ v in
  let mod_aux :=
    if controller =? kCCModulationWheelMsb then mod_aux_ v
    else if controller =? kCCBreathController
    then <[3%nat := wrap_u16 (value ≪ 9)]> (mod_aux_ v)
    else if controller =? kCCFootPedalMsb
    then <[4%nat := wrap_u16 (value ≪ 9)]> (mod_aux_ v)
    else mod_aux_ v in
  {| note_ := note_ v;
     note_source_ := note_source_ v;
     note_target_ := note_target_ v;
     note_portamento_ := note_portamento_ v;
     tuning_ := tuning_ v;
     gate_ := gate_ v;
     dirty_ := dirty_ v;
     note_dac_code_ := note_dac_code_ v;
     calibrated_dac_code_ := calibrated_dac_code_ v;
     mod_pitch_bend_ := mod_pitch_bend_ v;
     mod_wheel_ := mod_wheel;
     mod_aux_ := mod_aux;
     mod_velocity_ := mod_velocity_ v;
     pitch_bend_range_ := pitch_bend_range_ v;
     vibrato_range_ := vibrato_range_ v;
     modulation_rate_ := modulation_rate_ v;
     lfo_phase_ := lfo_phase_ v;
     lfo_pll_phase_increment_ := lfo_pll_phase_increment_ v;
     portamento_phase_ := portamento_phase_ v;
     portamento_phase_increment_ := portamento_phase_increment_ v;
     portamento_exponential_shape_ := portamento_exponential_shape_ v;
     retrigger_delay_ := retrigger_delay_ v;
     trigger_pulse_ := trigger_pulse_ v;
     trigger_phase_increment_ := trigger_phase_increment_ v;
     trigger_phase_ := trigger_phase_ v;
     trigger_duration_ := trigger_duration_ v;
     trigger_shape_ := trigger_shape_ v;
     trigger_scale_ := trigger_scale_ v;
     oscillator_ := oscillator_ v |}.

Definition trigger_dac_code (v : Voice) : Z :=
  if trigger_phase_ v <=? trigger_phase_increment_ v
  then at_index (calibrated_dac_code_ v) 3 (* 0V. *)
  else
    let velocity_coefficient :=
      if trigger_scale_ v then mod_velocity_ v ≪ 8 else 32768 in
    let value :=
      if trigger_shape_ v =? TRIGGER_SHAPE_SQUARE then 32767
      else if trigger_shape_ v =? TRIGGER_SHAPE_LINEAR
      then wrap_i32 (wrap_u32 (32767 - (trigger_phase_ v ≫ 17)))
      else
        Interpolate824_s16
          (waveform_table (trigger_shape_ v - TRIGGER_SHAPE_EXPONENTIAL))
          (trigger_phase_ v) in
    let value := wrap_i32 (value * velocity_coefficient) ≫ 15 in
    let max := at_index (calibrated_dac_code_ v) 8 in
    let min := at_index (calibrated_dac_code_ v) 3 in
    wrap_u16 (wrap_i32 (min + (wrap_i32 (wrap_i32 (max - min) * value)
                               ≫ 15))).

(** *** Runs: what the MIDI layer and the scheduler call *)

Inductive Event :=
| EvNoteOn (note velocity portamento : Z) (trigger : bool)
| EvNoteOff
| EvControlChange (controller value : Z)
| EvRefresh.

Definition step (v : Voice) (e : Event) : Voice :=
  match e with
  | EvNoteOn note velocity portamento trigger =>
      NoteOn v note velocity portamento trigger
  | EvNoteOff => NoteOff v
  | EvControlChange controller value => ControlChange v controller value
  | EvRefresh => Refresh v
  end.

Definition run (v : Voice) (events : list Event) : Voice :=
  fold_left step events v.

(** [n] ticks of the scheduler. *)
Fixpoint refresh_n (n : nat) (v : Voice) : Voice :=
  match n with
  | O => v
  | S k => Refresh (refresh_n k v)
  end.

End Operations.

(** ** [Voice::Calibrate] and the predicates of the further properties *)

(** [std::copy(&src[i], &src[i + count], &dst[i])], one element at a
    time; [src] is the caller's array of 16-bit codes. *)
Fixpoint copy_from (src dst : list Z) (i count : nat) : list Z :=
  match count with
  | O => dst
  | S k => copy_from src (<[i := at_index src (Z.of_nat i)]> dst) (S i) k
  end.

Section Calibration.

Context `{Resources}.

Definition Calibrate (v : Voice) (calibrated_dac_code : list Z) : Voice :=
  {| note_ := note_ v;
     note_source_ := note_source_ v;
     note_target_ := note_target_ v;
     note_portamento_ := note_portamento_ v;
     tuning_ := tuning_ v;
     gate_ := gate_ v;
     dirty_ := dirty_ v;
     note_dac_code_ := note_dac_code_ v;
     calibrated_dac_code_ :=
       copy_from calibrated_dac_code (calibrated_dac_code_ v) 0 kNumOctaves;
     mod_pitch_bend_ := mod_pitch_bend_ v;
     mod_wheel_ := mod_wheel_ v;
     mod_aux_ := mod_aux_ v;
     mod_velocity_ := mod_velocity_ v;
     pitch_bend_range_ := pitch_bend_range_ v;
     vibrato_range_ := vibrato_range_ v;
     modulation_rate_ := modulation_rate_ v;
     lfo_phase_ := lfo_phase_ v;
     lfo_pll_phase_increment_ := lfo_pll_phase_increment_ v;
     portamento_phase_ := portamento_phase_ v;
     portamento_phase_increment_ := portamento_phase_increment_ v;
     portamento_exponential_shape_ := portamento_exponential_shape_ v;
     retrigger_delay_ := retrigger_delay_ v;
     trigger_pulse_ := trigger_pulse_ v;
     trigger_phase_increment_ := trigger_phase_increment_ v;
     trigger_phase_ := trigger_phase_ v;
     trigger_duration_ := trigger_duration_ v;
     trigger_shape_ := trigger_shape_ v;
     trigger_scale_ := trigger_scale_ v;
     oscillator_ := oscillator_ v |}.


(** The increment that [Refresh] adds to [lfo_phase_]: from the rate table
    below rate 100, the synchronized one otherwise. *)
Definition lfo_increment (v : Voice) : Z :=
  if modulation_rate_ v <? 100
  then lut_lfo_increments (modulation_rate_ v)
  else lfo_pll_phase_increment_ v.

End Calibration.

(** The events that move the gate. *)
Definition is_note_on (e : Event) : bool :=
  match e with EvNoteOn _ _ _ _ => true | _ => false end.

Definition is_note_off (e : Event) : bool :=
  match e with EvNoteOff => true | _ => false end.

Definition is_refresh (e : Event) : bool :=
  match e with EvRefresh => true | _ => false end.

(** The number of ticks in a run. *)
Fixpoint ticks (events : list Event) : nat :=
  match events with
  | [] => 0
  | e :: events => (if is_refresh e then 1 else 0) + ticks events
  end.

(** The published code is the code of the published note, unless the voice
    is marked dirty. *)
Definition code_current (v : Voice) : Prop :=
  dirty_ v = true \/
  note_dac_code_ v = NoteToDacCode (calibrated_dac_code_ v) (note_ v).

(** No glide in progress: the accumulator and its increment are zero and
    the source is the target. *)
Definition settled (v : Voice) : Prop :=
  portamento_phase_ v = 0 /\ portamento_phase_increment_ v = 0 /\
  note_source_ v = note_target_ v.

(** No trigger envelope in progress. *)
Definition trigger_idle (v : Voice) : Prop :=
  trigger_phase_ v = 0 /\ trigger_phase_increment_ v = 0.

(** ** Fixtures for the examples

    The table that [Init] writes when it resets the calibration of an
    eleven-entry table, and a set of external declarations: eleven octave
    boundaries, the MIDI controller numbers 1, 2 and 4, the trigger shapes
    numbered from 0, synthetic lookup tables, and stmlib's interpolation
    between two adjacent table entries. *)

Definition default_calibration : list Z :=
  reset_calibration_from (replicate 11 0) 0 11.

Definition rising_calibration : list Z :=
  [0; 6000; 12000; 18000; 24000; 30000; 36000; 42000; 48000; 54000; 60000].

Definition interpolate824 (table : Z -> Z) (phase : Z) : Z :=
  let a := table (phase ≫ 24) in
  let b := table ((phase ≫ 24) + 1) in
  a + (((b - a) * Z.land (phase ≫ 8) 65535) ≫ 16).

Definition example_resources : Resources :=
  {| kNumOctaves := 11;
     kCCModulationWheelMsb := 1;
     kCCBreathController := 2;
     kCCFootPedalMsb := 4;
     TRIGGER_SHAPE_SQUARE := 0;
     TRIGGER_SHAPE_LINEAR := 1;
     TRIGGER_SHAPE_EXPONENTIAL := 2;
     lut_portamento_increments := fun i => wrap_u32 (2 ^ 31 / (1 + i * i));
     lut_lfo_increments := fun i => wrap_u32 (89478 * (1 + i));
     lut_env_expo := fun i => Z.min 65535 (i * 256);
     waveform_table := fun _ i => Z.max 0 (32767 - i * 128);
     Interpolate824_u16 := fun t p => wrap_u16 (interpolate824 t p);
     Interpolate824_s16 := fun t p => interpolate824 t p;
     lut_portamento_increments_u32 :=
       fun i => Z.mod_pos_bound (2 ^ 31 / (1 + i * i)) (2 ^ 32) eq_refl;
     lut_lfo_increments_u32 :=
       fun i => Z.mod_pos_bound (89478 * (1 + i)) (2 ^ 32) eq_refl |}.

(** A voice with every field zero and arrays of the declared sizes, as a
    zero-initialised object; [power_on] is that voice after [Init(true)]. *)
Definition zero_voice : Voice :=
  {| note_ := 0; note_source_ := 0; note_target_ := 0;
     note_portamento_ := 0; tuning_ := 0; gate_ := false; dirty_ := false;
     note_dac_code_ := 0; calibrated_dac_code_ := replicate 11 0;
     mod_pitch_bend_ := 0; mod_wheel_ := 0; mod_aux_ := replicate 8 0;
     mod_velocity_ := 0; pitch_bend_range_ := 0; vibrato_range_ := 0;
     modulation_rate_ := 0; lfo_phase_ := 0; lfo_pll_phase_increment_ := 0;
     portamento_phase_ := 0; portamento_phase_increment_ := 0;
     portamento_exponential_shape_ := false; retrigger_delay_ := 0;
     trigger_pulse_ := 0; trigger_phase_increment_ := 0; trigger_phase_ := 0;
     trigger_duration_ := 0; trigger_shape_ := 0; trigger_scale_ := false;
     oscillator_ := (0, 0) |}.

Definition power_on : Voice := @Init example_resources zero_voice true.

(** A glide of an octave, three ticks old; a gated voice; a voice one tick
    after power on, when [Refresh] has written all its channels. *)
Definition mid_glide : Voice :=
  @refresh_n example_resources 3
    (@NoteOn example_resources power_on 9216 100 60 false).

Definition gated : Voice := @NoteOn example_resources power_on 7680 100 0 true.

Definition aux7_set : Voice := @Refresh example_resources power_on.

(** * Properties *)

(** ** Fixed-width integers *)

Section IntFacts.

Lemma wrap_u8_id z : is_u8 z -> wrap_u8 z = z.
Proof. unfold is_u8, wrap_u8. intros Hz. apply Z.mod_small. lia. Qed.

Lemma wrap_u16_id z : is_u16 z -> wrap_u16 z = z.
Proof. unfold is_u16, wrap_u16. intros Hz. apply Z.mod_small. lia. Qed.

Lemma wrap_u32_id z : is_u32 z -> wrap_u32 z = z.
Proof. unfold is_u32, wrap_u32. intros Hz. apply Z.mod_small. lia. Qed.

Lemma wrap_i32_id z : is_i32 z -> wrap_i32 z = z.
Proof.
  unfold is_i32, wrap_i32. intros Hz.
  rewrite Z.mod_small by lia. lia.
Qed.

Lemma wrap_u8_range z : is_u8 (wrap_u8 z).
Proof. unfold is_u8, wrap_u8. apply Z.mod_pos_bound. lia. Qed.

Lemma wrap_u16_range z : is_u16 (wrap_u16 z).
Proof. unfold is_u16, wrap_u16. apply Z.mod_pos_bound. lia. Qed.

Lemma wrap_u32_range z : is_u32 (wrap_u32 z).
Proof. unfold is_u32, wrap_u32. apply Z.mod_pos_bound. lia. Qed.

Lemma wrap_i32_range z : is_i32 (wrap_i32 z).
Proof.
  unfold is_i32, wrap_i32.
  pose proof (Z.mod_pos_bound (z + 2 ^ 31) (2 ^ 32)). lia.
Qed.

End IntFacts.

(** ** Quantization *)

Section Quantization.

Lemma kOctave_val : kOctave = 1536.
Proof. reflexivity. Qed.

Lemma kMaxNote_val : kMaxNote = 15360.
Proof. reflexivity. Qed.

Lemma clamp_note_range note : 0 <= clamp_note note < kMaxNote.
Proof.
  unfold clamp_note. rewrite kMaxNote_val, !Z.geb_leb.
  destruct (Z.leb_spec note 0);
    [destruct (Z.leb_spec 15360 0) | destruct (Z.leb_spec 15360 note)]; lia.
Qed.

Lemma clamp_note_id note : 0 <= note < kMaxNote -> clamp_note note = note.
Proof.
  unfold clamp_note. rewrite kMaxNote_val, !Z.geb_leb. intros Hn.
  destruct (Z.leb_spec note 0);
    [destruct (Z.leb_spec 15360 0) | destruct (Z.leb_spec 15360 note)]; lia.
Qed.

Lemma clamp_note_low note : note <= 0 -> clamp_note note = 0.
Proof.
  unfold clamp_note. rewrite kMaxNote_val, !Z.geb_leb. intros Hn.
  destruct (Z.leb_spec note 0); [reflexivity | lia].
Qed.

Lemma clamp_note_high note :
  kMaxNote <= note -> clamp_note note = kMaxNote - 1.
Proof.
  unfold clamp_note. rewrite kMaxNote_val, !Z.geb_leb. intros Hn.
  destruct (Z.leb_spec note 0); [lia |].
  destruct (Z.leb_spec 15360 note); [reflexivity | lia].
Qed.

(** The loop is a division with remainder, as long as the 8-bit octave
    counter does not wrap. *)
Lemma octave_loop_divmod note octave :
  0 <= note -> 0 <= octave -> octave + note / kOctave < 2 ^ 8 ->
  octave_loop note octave = (note mod kOctave, octave + note / kOctave).
Proof.
  funelim (octave_loop note octave); intros Hn Ho Hb;
    match goal with
    | g : _ >= kOctave |- _ => pose proof g as Hg
    | g : ¬ _ >= kOctave |- _ => pose proof g as Hg
    end;
    rewrite kOctave_val in *.
  - assert (Hq : note / 1536 = (note - 1536) / 1536 + 1).
    { replace note with ((note - 1536) + 1 * 1536) at 1 by lia.
      rewrite Z.div_add by lia. reflexivity. }
    assert (Hr : note mod 1536 = (note - 1536) mod 1536).
    { replace note with ((note - 1536) + 1 * 1536) at 1 by lia.
      rewrite Z.mod_add by lia. reflexivity. }
    assert (0 <= (note - 1536) / 1536) by (apply Z.div_pos; lia).
    rewrite (wrap_u8_id (octave + 1)) in * by (unfold is_u8; lia).
    match goal with IH : _ -> _ -> _ -> octave_loop _ _ = _ |- _ =>
      rewrite IH by lia end.
    rewrite Hq, Hr. f_equal. lia.
  - rewrite Z.mod_small, Z.div_small by lia. f_equal. lia.
Qed.

Lemma octave_loop_clamped note :
  octave_loop (clamp_note note) 0 =
    (clamp_note note mod kOctave, clamp_note note / kOctave).
Proof.
  pose proof (clamp_note_range note) as Hc. rewrite kMaxNote_val in Hc.
  assert (0 <= clamp_note note / kOctave < 10).
  { rewrite kOctave_val. split.
    - apply Z.div_pos; lia.
    - apply Z.div_lt_upper_bound; lia. }
  rewrite octave_loop_divmod by lia. reflexivity.
Qed.

Lemma octave_index_bounds note : 0 <= octave_index note <= 9.
Proof.
  unfold octave_index. rewrite octave_loop_clamped. simpl.
  pose proof (clamp_note_range note) as Hc. rewrite kMaxNote_val in Hc.
  rewrite kOctave_val. split.
  - apply Z.div_pos; lia.
  - apply Z.lt_succ_r. apply Z.div_lt_upper_bound; lia.
Qed.

Lemma quot_scaled_nonneg d r :
  0 <= d -> 0 <= r < kOctave ->
  0 <= (d * r) ÷ kOctave <= d.
Proof.
  rewrite kOctave_val. intros Hd Hr.
  rewrite Z.quot_div_nonneg by nia. split.
  - apply Z.div_pos; nia.
  - apply Z.div_le_upper_bound; nia.
Qed.

Lemma quot_scaled_neg d r :
  (- d * r) ÷ kOctave = - ((d * r) ÷ kOctave).
Proof.
  rewrite Z.mul_opp_l, Z.quot_opp_l; [reflexivity|].
  rewrite kOctave_val. lia.
Qed.

Lemma interpolate_up a b r :
  a <= b -> 0 <= r < kOctave -> a <= interpolate a b r <= b.
Proof.
  intros Hab Hr. unfold interpolate.
  pose proof (quot_scaled_nonneg (b - a) r ltac:(lia) Hr). lia.
Qed.

Lemma interpolate_down a b r :
  b <= a -> 0 <= r < kOctave -> b <= interpolate a b r <= a.
Proof.
  intros Hab Hr. unfold interpolate.
  replace (b - a) with (- (a - b)) by lia.
  rewrite quot_scaled_neg.
  pose proof (quot_scaled_nonneg (a - b) r ltac:(lia) Hr). lia.
Qed.

Lemma interpolate_up_mono a b r1 r2 :
  a <= b -> 0 <= r1 -> r1 <= r2 -> r2 < kOctave ->
  interpolate a b r1 <= interpolate a b r2.
Proof.
  intros Hab H1 H12 H2. unfold interpolate.
  apply Z.add_le_mono_l, Z.quot_le_mono; [rewrite kOctave_val; lia | nia].
Qed.

Lemma interpolate_down_mono a b r1 r2 :
  b <= a -> 0 <= r1 -> r1 <= r2 -> r2 < kOctave ->
  interpolate a b r2 <= interpolate a b r1.
Proof.
  intros Hab H1 H12 H2. unfold interpolate.
  apply Z.add_le_mono_l, Z.quot_le_mono; [rewrite kOctave_val; lia | nia].
Qed.

Lemma at_index_u16 t i : Forall is_u16 t -> is_u16 (at_index t i).
Proof.
  intros Ht. unfold at_index.
  destruct (t !! Z.to_nat i) as [x|] eqn:E; simpl.
  - eapply Forall_lookup_1; eauto.
  - unfold is_u16. lia.
Qed.

(** With 16-bit table entries no operation of the last line wraps. *)
Lemma interpolate_no_wrap a b r :
  is_u16 a -> is_u16 b -> 0 <= r < kOctave ->
  wrap_u16 (wrap_i32 (a + wrap_i32 (wrap_i32 (b - a) * r) ÷ kOctave))
  = interpolate a b r.
Proof.
  unfold is_u16. intros Ha Hb Hr.
  assert (Hbetween : 0 <= interpolate a b r < 2 ^ 16).
  { destruct (Z.le_gt_cases a b).
    - pose proof (interpolate_up a b r ltac:(lia) Hr). lia.
    - pose proof (interpolate_down a b r ltac:(lia) Hr). lia. }
  rewrite kOctave_val in Hr.
  rewrite (wrap_i32_id (b - a)) by (unfold is_i32; lia).
  rewrite (wrap_i32_id ((b - a) * r)) by (unfold is_i32; nia).
  fold (interpolate a b r).
  rewrite wrap_i32_id by (unfold is_i32; lia).
  apply wrap_u16_id. exact Hbetween.
Qed.

Lemma NoteToDacCode_clamped t note :
  Forall is_u16 t ->
  NoteToDacCode t note =
    interpolate (at_index t (clamp_note note / kOctave))
                (at_index t (clamp_note note / kOctave + 1))
                (clamp_note note mod kOctave).
Proof.
  intros Ht. unfold NoteToDacCode, octave_index.
  rewrite octave_loop_clamped. simpl.
  apply interpolate_no_wrap; auto using at_index_u16.
  apply Z.mod_pos_bound. rewrite kOctave_val. lia.
Qed.

Lemma NoteToDacCode_in_range t note :
  Forall is_u16 t -> 0 <= note < kMaxNote ->
  NoteToDacCode t note =
    interpolate (at_index t (note / kOctave))
                (at_index t (note / kOctave + 1)) (note mod kOctave).
Proof.
  intros Ht Hn. rewrite NoteToDacCode_clamped by exact Ht.
  rewrite clamp_note_id by exact Hn. reflexivity.
Qed.

Lemma table_nondecreasing_le t i j :
  table_nondecreasing t -> 0 <= i -> i <= j -> j < Z.of_nat (length t) ->
  at_index t i <= at_index t j.
Proof.
  intros Ht Hi Hij Hj.
  replace j with (i + Z.of_nat (Z.to_nat (j - i))) in * by lia.
  induction (Z.to_nat (j - i)) as [|d IH].
  - rewrite Z.add_0_r. reflexivity.
  - transitivity (at_index t (i + Z.of_nat d)); [apply IH; lia |].
    replace (i + Z.of_nat (S d)) with (i + Z.of_nat d + 1) in * by lia.
    apply Ht; lia.
Qed.

Lemma table_nonincreasing_le t i j :
  table_nonincreasing t -> 0 <= i -> i <= j -> j < Z.of_nat (length t) ->
  at_index t j <= at_index t i.
Proof.
  intros Ht Hi Hij Hj.
  replace j with (i + Z.of_nat (Z.to_nat (j - i))) in * by lia.
  induction (Z.to_nat (j - i)) as [|d IH].
  - rewrite Z.add_0_r. reflexivity.
  - transitivity (at_index t (i + Z.of_nat d)); [| apply IH; lia].
    replace (i + Z.of_nat (S d)) with (i + Z.of_nat d + 1) in * by lia.
    apply Ht; lia.
Qed.

End Quantization.

(** ** The quantization claims *)

Section QuantizationClaims.

Lemma default_calibration_val :
  default_calibration =
    [54586; 49453; 44320; 39187; 34054; 28921; 23788; 18655; 13522; 8389;
     3256].
Proof. reflexivity. Qed.

Lemma default_calibration_u16 : Forall is_u16 default_calibration.
Proof.
  rewrite default_calibration_val. repeat constructor; unfold is_u16; lia.
Qed.

Lemma rising_calibration_u16 : Forall is_u16 rising_calibration.
Proof. unfold rising_calibration. repeat constructor; unfold is_u16; lia. Qed.

Lemma default_calibration_nonincreasing :
  table_nonincreasing default_calibration.
Proof.
  intros i Hi Hlen. rewrite default_calibration_val in *. simpl in Hlen.
  assert (Hcases : i = 0 \/ i = 1 \/ i = 2 \/ i = 3 \/ i = 4 \/ i = 5 \/
                   i = 6 \/ i = 7 \/ i = 8 \/ i = 9) by lia.
  repeat (destruct Hcases as [-> | Hcases]; [vm_compute; discriminate |]).
  subst i. vm_compute. discriminate.
Qed.

Lemma rising_calibration_nondecreasing :
  table_nondecreasing rising_calibration.
Proof.
  intros i Hi Hlen. unfold rising_calibration in *. simpl in Hlen.
  assert (Hcases : i = 0 \/ i = 1 \/ i = 2 \/ i = 3 \/ i = 4 \/ i = 5 \/
                   i = 6 \/ i = 7 \/ i = 8 \/ i = 9) by lia.
  repeat (destruct Hcases as [-> | Hcases]; [vm_compute; discriminate |]).
  subst i. vm_compute. discriminate.
Qed.

(** Notes of one table bracket, or of two brackets in order. *)
Lemma split_brackets n1 n2 :
  0 <= n1 -> n1 < n2 ->
  (n1 / kOctave = n2 / kOctave /\ n1 mod kOctave <= n2 mod kOctave) \/
  n1 / kOctave + 1 <= n2 / kOctave.
Proof.
  rewrite kOctave_val. intros H1 H12.
  pose proof (Z.div_mod n1 1536 ltac:(lia)).
  pose proof (Z.div_mod n2 1536 ltac:(lia)).
  pose proof (Z.mod_pos_bound n1 1536 ltac:(lia)).
  pose proof (Z.mod_pos_bound n2 1536 ltac:(lia)).
  assert (n1 / 1536 <= n2 / 1536) by (apply Z.div_le_mono; lia).
  destruct (Z.eq_dec (n1 / 1536) (n2 / 1536)) as [E|E]; [left | right]; lia.
Qed.

(** C1, as amended: the quantization keeps the order of the table.  For
    a table of 16-bit codes with an entry for each of the eleven octave
    boundaries of [0, kMaxNote) and notes n1 < n2 of that range: if the
    table never decreases from one octave index to the next then
    NoteToDacCode(n1) <= NoteToDacCode(n2), and if it never increases, as
    the default table of Init, then NoteToDacCode(n2) <= NoteToDacCode(n1). *)
Theorem NoteToDacCode_keeps_table_order (t : list Z) (n1 n2 : Z) :
  Forall is_u16 t -> kMaxNote / kOctave < Z.of_nat (length t) ->
  0 <= n1 -> n1 < n2 -> n2 < kMaxNote ->
  (table_nondecreasing t -> NoteToDacCode t n1 <= NoteToDacCode t n2) /\
  (table_nonincreasing t -> NoteToDacCode t n2 <= NoteToDacCode t n1).
Proof.
  intros Ht Hlen H1 H12 H2.
  rewrite !NoteToDacCode_in_range by (auto; lia).
  change (kMaxNote / kOctave) with 10 in Hlen.
  assert (Ho1 : 0 <= n1 / kOctave) by (apply Z.div_pos; [| rewrite kOctave_val]; lia).
  assert (Ho2 : n2 / kOctave < 10).
  { rewrite kOctave_val. apply Z.div_lt_upper_bound; [lia |].
    rewrite kMaxNote_val in H2. lia. }
  pose proof (Z.mod_pos_bound n1 kOctave ltac:(rewrite kOctave_val; lia)) as Hr1.
  pose proof (Z.mod_pos_bound n2 kOctave ltac:(rewrite kOctave_val; lia)) as Hr2.
  destruct (split_brackets n1 n2 H1 H12) as [[Eo Hr] | Ho]; split; intros Hm.
  - rewrite Eo in *. apply interpolate_up_mono; try lia. apply Hm; lia.
  - rewrite Eo in *. apply interpolate_down_mono; try lia. apply Hm; lia.
  - transitivity (at_index t (n1 / kOctave + 1)).
    { apply interpolate_up; [apply Hm |]; lia. }
    transitivity (at_index t (n2 / kOctave)).
    { apply table_nondecreasing_le; auto; lia. }
    apply interpolate_up; [apply Hm |]; lia.
  - transitivity (at_index t (n2 / kOctave)).
    { apply interpolate_down; [apply Hm |]; lia. }
    transitivity (at_index t (n1 / kOctave + 1)).
    { apply table_nonincreasing_le; auto; lia. }
    apply interpolate_down; [apply Hm |]; lia.
Qed.

Lemma NoteToDacCode_keeps_table_order_witness :
  NoteToDacCode rising_calibration 1000 <= NoteToDacCode rising_calibration 9000
  /\ NoteToDacCode default_calibration 9000
     <= NoteToDacCode default_calibration 1000.
Proof.
  split.
  - apply (NoteToDacCode_keeps_table_order rising_calibration 1000 9000).
    + exact rising_calibration_u16.
    + reflexivity.
    + lia.
    + lia.
    + reflexivity.
    + exact rising_calibration_nondecreasing.
  - apply (NoteToDacCode_keeps_table_order default_calibration 1000 9000).
    + exact default_calibration_u16.
    + reflexivity.
    + lia.
    + lia.
    + reflexivity.
    + exact default_calibration_nonincreasing.
Defined.

(** C1 as stated fails on the table that Init itself writes: the default
    calibration is monotonic across the octave index (strictly falling,
    54586 - 5133 * i), and the code of note 0 is above the code of note
    1536, one octave up. *)
Lemma NoteToDacCode_default_table_falls :
  calibrated_dac_code_ power_on = default_calibration /\
  table_nonincreasing default_calibration /\
  0 <= 0 /\ 0 < 1536 /\ 1536 < kMaxNote /\
  NoteToDacCode default_calibration 0 = 54586 /\
  NoteToDacCode default_calibration 1536 = 49453 /\
  ~ NoteToDacCode default_calibration 0
    <= NoteToDacCode default_calibration 1536.
Proof.
  split; [reflexivity |].
  split; [exact default_calibration_nonincreasing |].
  repeat (split; [first [reflexivity | lia] |]).
  vm_compute. intros Hle. apply Hle. reflexivity.
Qed.

(** C2: NoteToDacCode clamps before the octave decomposition.  Every note
    <= 0 gives the code of note 0, which is the first table entry; every
    note >= kMaxNote gives the code of note kMaxNote - 1, in the last
    bracket (octave 9); and for every note the octave index read, and the
    index after it, stay within a table that has an entry for each of the
    eleven octave boundaries. *)
Theorem NoteToDacCode_clamps (t : list Z) (note : Z) :
  Forall is_u16 t -> kMaxNote / kOctave < Z.of_nat (length t) ->
  (note <= 0 ->
     NoteToDacCode t note = NoteToDacCode t 0 /\
     NoteToDacCode t note = at_index t 0) /\
  (kMaxNote <= note ->
     NoteToDacCode t note = NoteToDacCode t (kMaxNote - 1) /\
     octave_index note = kMaxNote / kOctave - 1) /\
  0 <= octave_index note /\
  octave_index note + 1 <= Z.of_nat (length t) - 1.
Proof.
  intros Ht Hlen. split; [| split].
  - intros Hn.
    assert (E : NoteToDacCode t note = NoteToDacCode t 0).
    { unfold NoteToDacCode, octave_index.
      rewrite (clamp_note_low note Hn), (clamp_note_low 0) by lia.
      reflexivity. }
    split; [exact E |]. rewrite E.
    rewrite NoteToDacCode_in_range by (auto; rewrite kMaxNote_val; lia).
    unfold interpolate. change (0 / kOctave) with 0.
    change (0 mod kOctave) with 0. rewrite Z.mul_0_r.
    change (0 ÷ kOctave) with 0. lia.
  - intros Hn. split.
    + unfold NoteToDacCode, octave_index.
      rewrite (clamp_note_high note Hn).
      rewrite (clamp_note_id (kMaxNote - 1)) by (rewrite kMaxNote_val; lia).
      reflexivity.
    + unfold octave_index. rewrite (clamp_note_high note Hn). reflexivity.
  - pose proof (octave_index_bounds note).
    change (kMaxNote / kOctave) with 10 in Hlen. lia.
Qed.

Lemma NoteToDacCode_clamps_witness :
  NoteToDacCode default_calibration (-5) = at_index default_calibration 0 /\
  NoteToDacCode default_calibration 20000
  = NoteToDacCode default_calibration (kMaxNote - 1).
Proof.
  split.
  - apply (NoteToDacCode_clamps default_calibration (-5)).
    + exact default_calibration_u16.
    + reflexivity.
    + lia.
  - apply (NoteToDacCode_clamps default_calibration 20000).
    + exact default_calibration_u16.
    + reflexivity.
    + vm_compute. discriminate.
Defined.

End QuantizationClaims.

(** ** The vibrato LFO *)

Section Lfo.

Lemma wrap_i32_of_u32 x : is_i32 x -> wrap_i32 (wrap_u32 x) = x.
Proof.
  unfold is_i32, wrap_i32, wrap_u32. intros Hx.
  rewrite Zplus_mod_idemp_l, Z.mod_small by lia. lia.
Qed.

Lemma lfo_triangle_rising p :
  0 <= p < 2 ^ 31 -> lfo_triangle p = (p ≫ 15) - 32768.
Proof.
  intros Hp. unfold lfo_triangle. change (1 ≪ 31) with (2 ^ 31).
  destruct (Z.ltb_spec p (2 ^ 31)); [| lia].
  assert (0 <= p ≫ 15 < 2 ^ 16).
  { rewrite Z.shiftr_div_pow2 by lia. split.
    - apply Z.div_pos; lia.
    - apply Z.div_lt_upper_bound; lia. }
  rewrite wrap_i32_of_u32 by (unfold is_i32; lia). lia.
Qed.

Lemma lfo_triangle_falling p :
  2 ^ 31 <= p < 2 ^ 32 -> lfo_triangle p = 98303 - (p ≫ 15).
Proof.
  intros Hp. unfold lfo_triangle. change (1 ≪ 31) with (2 ^ 31).
  destruct (Z.ltb_spec p (2 ^ 31)); [lia |].
  assert (2 ^ 16 <= p ≫ 15 < 2 ^ 17).
  { rewrite Z.shiftr_div_pow2 by lia. split.
    - apply Z.div_le_lower_bound; lia.
    - apply Z.div_lt_upper_bound; lia. }
  rewrite wrap_i32_of_u32 by (unfold is_i32; lia). reflexivity.
Qed.

Lemma shiftr15_mono p q : 0 <= p -> p <= q -> p ≫ 15 <= q ≫ 15.
Proof.
  intros Hp Hpq. rewrite !Z.shiftr_div_pow2 by lia.
  apply Z.div_le_mono; lia.
Qed.

Lemma shiftr15_mirror p :
  0 <= p < 2 ^ 32 -> (2 ^ 32 - 1 - p) ≫ 15 = 2 ^ 17 - 1 - (p ≫ 15).
Proof.
  intros Hp. rewrite !Z.shiftr_div_pow2 by lia.
  pose proof (Z.div_mod p (2 ^ 15) ltac:(lia)) as Hdm.
  pose proof (Z.mod_pos_bound p (2 ^ 15) ltac:(lia)) as Hm.
  symmetry.
  apply (Z.div_unique _ _ _ (2 ^ 15 - 1 - p mod 2 ^ 15)); lia.
Qed.

(** C5, as amended: over the 32-bit vibrato phase the LFO output is a
    symmetric triangle wave within [-32768, 32767].  Below the half
    period (phase < 2^31) it never decreases and climbs from -32768 at
    phase 0 to 32767 at phase 2^31 - 1; at or above the half period it
    never increases and descends from 32767 at phase 2^31 back to -32768
    at phase 2^32 - 1; a phase and its mirror image 2^32 - 1 - phase give
    the same output. *)
Theorem lfo_triangle_shape (p q : Z) :
  0 <= p -> p <= q -> q < 2 ^ 32 ->
  -32768 <= lfo_triangle p <= 32767 /\
  (q < 2 ^ 31 -> lfo_triangle p <= lfo_triangle q) /\
  (2 ^ 31 <= p -> lfo_triangle q <= lfo_triangle p) /\
  lfo_triangle (2 ^ 32 - 1 - p) = lfo_triangle p /\
  lfo_triangle 0 = -32768 /\ lfo_triangle (2 ^ 31 - 1) = 32767 /\
  lfo_triangle (2 ^ 31) = 32767 /\ lfo_triangle (2 ^ 32 - 1) = -32768.
Proof.
  intros Hp Hpq Hq.
  pose proof (shiftr15_mono p q Hp Hpq) as Hmono.
  pose proof (shiftr15_mirror p ltac:(lia)) as Hmirror.
  assert (Hlow : p < 2 ^ 31 -> 0 <= p ≫ 15 < 2 ^ 16).
  { intros Hlt. rewrite Z.shiftr_div_pow2 by lia. split.
    - apply Z.div_pos; lia.
    - apply Z.div_lt_upper_bound; lia. }
  assert (Hhigh : 2 ^ 31 <= p -> 2 ^ 16 <= p ≫ 15 < 2 ^ 17).
  { intros Hge. rewrite Z.shiftr_div_pow2 by lia. split.
    - apply Z.div_le_lower_bound; lia.
    - apply Z.div_lt_upper_bound; lia. }
  repeat split; try reflexivity.
  - destruct (Z.lt_ge_cases p (2 ^ 31)).
    + rewrite lfo_triangle_rising by lia. lia.
    + rewrite lfo_triangle_falling by lia. lia.
  - destruct (Z.lt_ge_cases p (2 ^ 31)).
    + rewrite lfo_triangle_rising by lia. lia.
    + rewrite lfo_triangle_falling by lia. lia.
  - intros Hlt. rewrite !lfo_triangle_rising by lia. lia.
  - intros Hge. rewrite !lfo_triangle_falling by lia. lia.
  - destruct (Z.lt_ge_cases p (2 ^ 31)).
    + rewrite (lfo_triangle_rising p) by lia.
      rewrite (lfo_triangle_falling (2 ^ 32 - 1 - p)) by lia. lia.
    + rewrite (lfo_triangle_falling p) by lia.
      rewrite (lfo_triangle_rising (2 ^ 32 - 1 - p)) by lia. lia.
Qed.

Lemma lfo_triangle_shape_witness :
  lfo_triangle 1000000000 <= lfo_triangle 2000000000 /\
  lfo_triangle 4000000000 <= lfo_triangle 3000000000.
Proof.
  split.
  - apply (lfo_triangle_shape 1000000000 2000000000); lia.
  - apply (lfo_triangle_shape 3000000000 4000000000); lia.
Defined.

(** C5 as stated fails: just below the half period the output is at its
    most positive value, not near zero, and from the half period on it
    goes down, through -1 at three quarters, to its most negative
    value. *)
Lemma lfo_triangle_peaks_at_half_period :
  2147483647 < 2 ^ 31 /\ lfo_triangle 2147483647 = 32767 /\
  lfo_triangle 2147483648 = 32767 /\ lfo_triangle 3221225472 = -1 /\
  lfo_triangle 4294967295 = -32768.
Proof. repeat split. Qed.

End Lfo.

(** ** Portamento *)

Section Portamento.

Context `{Resources}.

Lemma wrap_i32_0 : wrap_i32 0 = 0.
Proof. reflexivity. Qed.

(** When source and target coincide the interpolation returns the target,
    whatever the level. *)
Lemma glide_at_rest target level :
  is_i32 target ->
  wrap_i32 (target + (wrap_i32 (wrap_i32 (target - target) * level) ≫ 16))
  = target.
Proof.
  intros Ht. rewrite Z.sub_diag, wrap_i32_0, Z.mul_0_l, wrap_i32_0.
  rewrite Z.shiftr_0_l, Z.add_0_r. apply wrap_i32_id, Ht.
Qed.

(** C3: on the Refresh tick on which the portamento phase accumulator
    wraps (the value after the increment is, as an unsigned number, below
    the increment just added), portamento_phase and
    portamento_phase_increment are both zero afterwards, note_source is
    note_target, and the note_portamento computed on that tick is exactly
    note_target. *)
Theorem Refresh_completes_glide (v : Voice) :
  is_i32 (note_target_ v) ->
  portamento_wraps v = true ->
  portamento_phase_ (Refresh v) = 0 /\
  portamento_phase_increment_ (Refresh v) = 0 /\
  note_source_ (Refresh v) = note_target_ v /\
  note_target_ (Refresh v) = note_target_ v /\
  note_portamento_ (Refresh v) = note_target_ v.
Proof.
  intros Ht Hw. unfold portamento_wraps in Hw. unfold Refresh. simpl.
  rewrite Hw. repeat split. apply glide_at_rest, Ht.
Qed.

Lemma Refresh_keeps_increment (v : Voice) :
  portamento_wraps v = false ->
  portamento_phase_increment_ (Refresh v) = portamento_phase_increment_ v.
Proof.
  intros Hw. unfold portamento_wraps in Hw. unfold Refresh. simpl.
  rewrite Hw. reflexivity.
Qed.

Lemma refresh_n_note_target (n : nat) (v : Voice) :
  note_target_ (refresh_n n v) = note_target_ v.
Proof. induction n as [|n IH]; [reflexivity | exact IH]. Qed.

(** While the accumulator stays below 2^32 it grows by one increment per
    tick and the increment is kept. *)
Lemma glide_in_progress (k : nat) (v : Voice) :
  is_u32 (portamento_phase_ v) -> is_u32 (portamento_phase_increment_ v) ->
  portamento_phase_ v + Z.of_nat k * portamento_phase_increment_ v < 2 ^ 32 ->
  portamento_phase_ (refresh_n k v)
  = portamento_phase_ v + Z.of_nat k * portamento_phase_increment_ v /\
  portamento_phase_increment_ (refresh_n k v) = portamento_phase_increment_ v.
Proof.
  unfold is_u32. intros Hp Hi. induction k as [|k IH]; intros Hk.
  - simpl. split; [lia | reflexivity].
  - destruct IH as [IHp IHi]; [nia |].
    change (refresh_n (S k) v) with (Refresh (refresh_n k v)).
    assert (Hw : portamento_wraps (refresh_n k v) = false).
    { unfold portamento_wraps. rewrite IHp, IHi.
      rewrite wrap_u32_id by (unfold is_u32; nia).
      apply Z.ltb_ge. nia. }
    split; [| rewrite Refresh_keeps_increment by exact Hw; exact IHi].
    unfold portamento_wraps in Hw. unfold Refresh. simpl. rewrite Hw.
    rewrite IHp, IHi. rewrite wrap_u32_id by (unfold is_u32; nia). lia.
Qed.

(** The number of ticks of a glide follows from the phase and the
    increment: with n = (2^32 - 1 - phase) / increment, the ticks before
    the n-th do not wrap, the n-th wraps, and after it the interpolated
    pitch is the target and the increment is zero. *)
Lemma glide_arrives (v : Voice) :
  is_u32 (portamento_phase_ v) -> is_u32 (portamento_phase_increment_ v) ->
  0 < portamento_phase_increment_ v -> is_i32 (note_target_ v) ->
  (forall k : nat,
     Z.of_nat k
     < (2 ^ 32 - 1 - portamento_phase_ v) / portamento_phase_increment_ v ->
     portamento_wraps (refresh_n k v) = false) /\
  forall n : nat,
    Z.of_nat n
    = (2 ^ 32 - 1 - portamento_phase_ v) / portamento_phase_increment_ v ->
    portamento_wraps (refresh_n n v) = true /\
    note_portamento_ (refresh_n (S n) v) = note_target_ v /\
    portamento_phase_ (refresh_n (S n) v) = 0 /\
    portamento_phase_increment_ (refresh_n (S n) v) = 0.
Proof.
  intros Hp Hi Hpos Ht. pose proof Hp as Hp'. pose proof Hi as Hi'.
  unfold is_u32 in Hp', Hi'.
  set (q := (2 ^ 32 - 1 - portamento_phase_ v)
            / portamento_phase_increment_ v).
  assert (Hq : q * portamento_phase_increment_ v
               <= 2 ^ 32 - 1 - portamento_phase_ v
               < (q + 1) * portamento_phase_increment_ v).
  { pose proof (Z.div_mod (2 ^ 32 - 1 - portamento_phase_ v)
                  (portamento_phase_increment_ v) ltac:(lia)) as Hdm.
    pose proof (Z.mod_pos_bound (2 ^ 32 - 1 - portamento_phase_ v)
                  (portamento_phase_increment_ v) Hpos) as Hm.
    fold q in Hdm. nia. }
  split.
  - intros k Hk.
    destruct (glide_in_progress k v Hp Hi) as [Ekp Eki]; [nia |].
    unfold portamento_wraps. rewrite Ekp, Eki.
    rewrite wrap_u32_id by (unfold is_u32; nia).
    apply Z.ltb_ge. nia.
  - intros n Hn.
    destruct (glide_in_progress n v Hp Hi) as [Enp Eni]; [nia |].
    assert (Hw : portamento_wraps (refresh_n n v) = true).
    { unfold portamento_wraps. rewrite Enp, Eni. apply Z.ltb_lt.
      unfold wrap_u32.
      replace (portamento_phase_ v
               + Z.of_nat n * portamento_phase_increment_ v
               + portamento_phase_increment_ v)
        with (portamento_phase_ v
              + (q + 1) * portamento_phase_increment_ v - 2 ^ 32
              + 1 * 2 ^ 32) by lia.
      rewrite Z.mod_add by lia. rewrite Z.mod_small; nia. }
    split; [exact Hw |].
    change (refresh_n (S n) v) with (Refresh (refresh_n n v)).
    rewrite <- (refresh_n_note_target n v) in Ht |- *.
    unfold portamento_wraps in Hw. unfold Refresh. simpl. rewrite Hw.
    split; [apply glide_at_rest, Ht | split; reflexivity].
Qed.

(** C4: NoteOn with portamento zero sets note_source to note_target at
    once, and the next Refresh gives note_portamento equal to the new
    target; NoteOn with a nonzero portamento sets note_source to the
    current interpolated pitch note_portamento, so a NoteOn in the middle
    of a glide starts the new glide from the pitch reached so far. *)
Theorem NoteOn_glide_source (v : Voice) (note velocity portamento : Z)
    (trigger : bool) :
  is_i16 note ->
  note_target_ (NoteOn v note velocity portamento trigger) = note /\
  (portamento = 0 ->
     note_source_ (NoteOn v note velocity portamento trigger) = note /\
     note_portamento_ (Refresh (NoteOn v note velocity portamento trigger))
     = note) /\
  (portamento <> 0 ->
     note_source_ (NoteOn v note velocity portamento trigger)
     = note_portamento_ v).
Proof.
  intros Hn. split; [reflexivity |]. split.
  - intros ->. split; [reflexivity |].
    unfold Refresh, NoteOn. simpl.
    assert (Hi : is_i32 note) by (unfold is_i16, is_i32 in *; lia).
    match goal with |- context [if ?c then note else note] =>
      replace (if c then note else note) with note by (destruct c; reflexivity)
    end.
    apply glide_at_rest, Hi.
  - intros Hp. unfold NoteOn. simpl.
    destruct (Z.eqb_spec portamento 0); [contradiction | reflexivity].
Qed.

End Portamento.

Section PortamentoIncrement.

Context `{Resources}.

Lemma CONSTRAIN_bounds var lo hi :
  lo <= hi -> lo <= CONSTRAIN var lo hi <= hi.
Proof.
  intros Hlh. unfold CONSTRAIN. rewrite Z.gtb_ltb.
  destruct (Z.ltb_spec var lo); [lia |].
  destruct (Z.ltb_spec hi var); lia.
Qed.

(** The +1 keeps the divisor away from zero, also where the 32-bit
    subtraction or [abs] wraps. *)
Lemma glide_delta_nonzero note_target note_source :
  glide_delta note_target note_source <> 0.
Proof.
  unfold glide_delta, abs_i32.
  pose proof (wrap_i32_range (note_target - note_source)) as Hx.
  set (x := wrap_i32 (note_target - note_source)) in *.
  unfold is_i32 in Hx. unfold wrap_u32, wrap_i32.
  assert (Ha : 0 <= Z.abs x <= 2 ^ 31) by lia.
  generalize dependent (Z.abs x). intros a Ha.
  Z.div_mod_to_equations. lia.
Qed.

Lemma glide_delta_distance note_target note_source :
  Z.abs (note_target - note_source) < 2 ^ 31 - 1 ->
  glide_delta note_target note_source
  = Z.abs (note_target - note_source) + 1.
Proof.
  intros Hd. unfold glide_delta, abs_i32.
  rewrite (wrap_i32_id (note_target - note_source)) by (unfold is_i32; lia).
  rewrite (wrap_i32_id (Z.abs _)) by (unfold is_i32; lia).
  rewrite wrap_i32_id by (unfold is_i32; lia).
  apply wrap_u32_id. unfold is_u32. lia.
Qed.

Lemma increment_kept_until_wrap (v : Voice) (n : nat) :
  (forall k, (k < n)%nat -> portamento_wraps (refresh_n k v) = false) ->
  portamento_phase_increment_ (refresh_n n v)
  = portamento_phase_increment_ v.
Proof.
  induction n as [|n IH]; intros Hk; [reflexivity |].
  change (refresh_n (S n) v) with (Refresh (refresh_n n v)).
  rewrite Refresh_keeps_increment by (apply Hk; lia).
  apply IH. intros k Hlt. apply Hk. lia.
Qed.

(** C8: a NoteOn on the linear branch (portamento > 50) divides by delta,
    the pitch distance plus one, which is never zero; the increment it
    leaves in portamento_phase_increment is the clamped quotient and lies
    in [1, 2147483647]; and it keeps that value, so it is not zero, on
    every later Refresh tick up to the one that completes the glide. *)
Theorem NoteOn_linear_increment (v : Voice) (note velocity portamento : Z)
    (trigger : bool) (n : nat) :
  50 < portamento ->
  glide_delta note (note_portamento_ v) <> 0 /\
  (Z.abs (note - note_portamento_ v) < 2 ^ 31 - 1 ->
     glide_delta note (note_portamento_ v)
     = Z.abs (note - note_portamento_ v) + 1) /\
  portamento_phase_increment_ (NoteOn v note velocity portamento trigger)
  = CONSTRAIN
      (linear_increment
         (lut_portamento_increments ((portamento - 51) ≪ 1))
         (glide_delta note (note_portamento_ v)))
      1 2147483647 /\
  1 <= portamento_phase_increment_
         (NoteOn v note velocity portamento trigger) <= 2147483647 /\
  ((forall k, (k < n)%nat ->
      portamento_wraps
        (refresh_n k (NoteOn v note velocity portamento trigger)) = false) ->
   1 <= portamento_phase_increment_
          (refresh_n n (NoteOn v note velocity portamento trigger))
     <= 2147483647).
Proof.
  intros Hp.
  assert (Hinc :
    portamento_phase_increment_ (NoteOn v note velocity portamento trigger)
    = CONSTRAIN
        (linear_increment
           (lut_portamento_increments ((portamento - 51) ≪ 1))
           (glide_delta note (note_portamento_ v)))
        1 2147483647).
  { unfold NoteOn. simpl.
    destruct (Z.leb_spec portamento 50); [lia |].
    destruct (Z.eqb_spec portamento 0); [lia | reflexivity]. }
  split; [apply glide_delta_nonzero |].
  split; [apply glide_delta_distance |].
  split; [exact Hinc |].
  split.
  - rewrite Hinc. apply CONSTRAIN_bounds. lia.
  - intros Hk. rewrite increment_kept_until_wrap by exact Hk.
    rewrite Hinc. apply CONSTRAIN_bounds. lia.
Qed.

End PortamentoIncrement.

(** ** Trigger and retrigger countdowns *)

Section Trigger.

Context `{Resources}.

Lemma refresh_n_shift (n : nat) (v : Voice) :
  refresh_n n (Refresh v) = Refresh (refresh_n n v).
Proof. induction n as [|n IH]; simpl; [| rewrite IH]; reflexivity. Qed.

Lemma Refresh_retrigger_delay (v : Voice) :
  retrigger_delay_ (Refresh v)
  = if retrigger_delay_ v =? 0 then retrigger_delay_ v
    else wrap_u8 (retrigger_delay_ v - 1).
Proof. reflexivity. Qed.

Lemma Refresh_trigger_pulse (v : Voice) :
  trigger_pulse_ (Refresh v)
  = if trigger_pulse_ v =? 0 then trigger_pulse_ v
    else wrap_u16 (trigger_pulse_ v - 1).
Proof. reflexivity. Qed.

Lemma Refresh_calibrated_dac_code (v : Voice) :
  calibrated_dac_code_ (Refresh v) = calibrated_dac_code_ v.
Proof. reflexivity. Qed.

Lemma refresh_n_calibrated_dac_code (n : nat) (v : Voice) :
  calibrated_dac_code_ (refresh_n n v) = calibrated_dac_code_ v.
Proof. induction n as [|n IH]; simpl; [reflexivity | exact IH]. Qed.

Lemma retrigger_delay_stays_zero (n : nat) (v : Voice) :
  retrigger_delay_ v = 0 -> retrigger_delay_ (refresh_n n v) = 0.
Proof.
  intros Hz. induction n as [|n IH]; [exact Hz |].
  change (refresh_n (S n) v) with (Refresh (refresh_n n v)).
  rewrite Refresh_retrigger_delay, IH. reflexivity.
Qed.

(** The countdowns lose one per tick and stop at zero. *)
Lemma trigger_pulse_after (n : nat) (v : Voice) :
  is_u16 (trigger_pulse_ v) ->
  trigger_pulse_ (refresh_n n v) = Z.max 0 (trigger_pulse_ v - Z.of_nat n).
Proof.
  unfold is_u16. intros Hp. induction n as [|n IH].
  - simpl. lia.
  - change (refresh_n (S n) v) with (Refresh (refresh_n n v)).
    rewrite Refresh_trigger_pulse, IH.
    destruct (Z.eqb_spec (Z.max 0 (trigger_pulse_ v - Z.of_nat n)) 0); [lia |].
    rewrite wrap_u16_id by (unfold is_u16; lia). lia.
Qed.

(** One tick after the envelope was armed its phase is one increment past
    zero, which [trigger_dac_code] still reports as 0V. *)
Lemma armed_phase_after_one_tick (v : Voice) :
  trigger_phase_ v = 0 -> is_u32 (trigger_phase_increment_ v) ->
  trigger_phase_ (Refresh v) <= trigger_phase_increment_ (Refresh v).
Proof.
  unfold is_u32. intros Hz Hi. unfold Refresh. simpl. rewrite Hz.
  destruct (Z.eqb_spec (trigger_phase_increment_ v) 0) as [E|E]; [lia |].
  simpl. rewrite wrap_u32_id by (unfold is_u32; lia).
  rewrite Z.ltb_irrefl. lia.
Qed.

(** C6: on a gated voice a NoteOn that asks for a trigger arms the
    retrigger countdown with 2, which lasts two Refresh ticks; as long as
    that countdown is pending the trigger output is still the calibrated
    0V code, so the newly armed envelope shows only after the gap. *)
Theorem retrigger_gap_precedes_envelope (v : Voice)
    (note velocity portamento : Z) (n : nat) :
  gate_ v = true ->
  retrigger_delay_ (NoteOn v note velocity portamento true) = 2 /\
  retrigger_delay_ (refresh_n n (NoteOn v note velocity portamento true))
  = Z.max 0 (2 - Z.of_nat n) /\
  (retrigger_delay_ (refresh_n n (NoteOn v note velocity portamento true))
   <> 0 ->
   trigger_dac_code (refresh_n n (NoteOn v note velocity portamento true))
   = at_index (calibrated_dac_code_ v) 3).
Proof.
  intros Hg.
  assert (Hd : retrigger_delay_ (NoteOn v note velocity portamento true) = 2).
  { unfold NoteOn. simpl. rewrite Hg. reflexivity. }
  assert (Hd1 : retrigger_delay_
                  (Refresh (NoteOn v note velocity portamento true)) = 1).
  { rewrite Refresh_retrigger_delay, Hd. reflexivity. }
  assert (Hd2 : retrigger_delay_
                  (Refresh (Refresh (NoteOn v note velocity portamento true)))
                = 0).
  { rewrite Refresh_retrigger_delay, Hd1. reflexivity. }
  pose proof (lut_portamento_increments_u32 (trigger_duration_ v)) as Hu.
  split; [exact Hd |].
  destruct n as [|[|n]].
  - split; [exact Hd |]. intros _. simpl refresh_n.
    unfold trigger_dac_code, NoteOn. simpl.
    unfold is_u32 in Hu.
    destruct (Z.leb_spec 0 (lut_portamento_increments (trigger_duration_ v)));
      [reflexivity | lia].
  - split; [exact Hd1 |]. intros _. simpl refresh_n.
    unfold trigger_dac_code.
    pose proof (armed_phase_after_one_tick
                  (NoteOn v note velocity portamento true) eq_refl Hu) as Hle.
    destruct (Z.leb_spec
                (trigger_phase_
                   (Refresh (NoteOn v note velocity portamento true)))
                (trigger_phase_increment_
                   (Refresh (NoteOn v note velocity portamento true))));
      [reflexivity | lia].
  - assert (Hz : retrigger_delay_
                   (refresh_n (S (S n))
                      (NoteOn v note velocity portamento true)) = 0).
    { simpl refresh_n. rewrite <- !refresh_n_shift.
      apply retrigger_delay_stays_zero, Hd2. }
    split; [rewrite Hz; lia |]. intros Hne. contradiction.
Qed.

(** C7: a NoteOn that asks for a trigger arms the trigger pulse countdown
    with trigger_duration * 8; each Refresh takes one off until zero, so
    after n ticks it holds max(0, trigger_duration * 8 - n), and it is
    zero exactly from tick trigger_duration * 8 on, never earlier. *)
Theorem trigger_pulse_countdown (v : Voice) (note velocity portamento : Z)
    (n : nat) :
  is_u8 (trigger_duration_ v) ->
  trigger_pulse_ (NoteOn v note velocity portamento true)
  = trigger_duration_ v * 8 /\
  trigger_pulse_ (refresh_n n (NoteOn v note velocity portamento true))
  = Z.max 0 (trigger_duration_ v * 8 - Z.of_nat n) /\
  (trigger_pulse_ (refresh_n n (NoteOn v note velocity portamento true)) = 0
   <-> trigger_duration_ v * 8 <= Z.of_nat n).
Proof.
  unfold is_u8. intros Hd.
  assert (Ha : trigger_pulse_ (NoteOn v note velocity portamento true)
               = trigger_duration_ v * 8).
  { unfold NoteOn. simpl. apply wrap_u16_id. unfold is_u16. lia. }
  assert (Hn : trigger_pulse_
                 (refresh_n n (NoteOn v note velocity portamento true))
               = Z.max 0 (trigger_duration_ v * 8 - Z.of_nat n)).
  { rewrite trigger_pulse_after; rewrite Ha; [reflexivity |].
    unfold is_u16. lia. }
  split; [exact Ha |]. split; [exact Hn |]. rewrite Hn. lia.
Qed.

End Trigger.

(** ** Controllers and the auxiliary modulation channels *)

Section Controllers.

Context `{Resources}.

Lemma fill_from_length a first count x :
  length (fill_from a first count x) = length a.
Proof.
  revert a first. induction count as [|k IH]; intros a first; simpl.
  - reflexivity.
  - rewrite IH. apply length_insert.
Qed.

Lemma fill_from_outside a first count x (i : nat) :
  (i < first \/ first + count <= i)%nat ->
  fill_from a first count x !! i = a !! i.
Proof.
  revert a first. induction count as [|k IH]; intros a first Hi; simpl.
  - reflexivity.
  - rewrite IH by lia. apply list_lookup_insert_ne. lia.
Qed.

Lemma fill_from_inside a first count x (i : nat) :
  (first <= i < first + count)%nat -> (i < length a)%nat ->
  fill_from a first count x !! i = Some x.
Proof.
  revert a first. induction count as [|k IH]; intros a first Hi Hlen; simpl.
  - lia.
  - destruct (decide (i = first)) as [-> | Hne].
    + rewrite fill_from_outside by lia.
      apply list_lookup_insert_eq. exact Hlen.
    + apply IH; [lia |]. rewrite length_insert. exact Hlen.
Qed.

Lemma ResetAllControllers_mod_aux (v : Voice) :
  mod_aux_ (ResetAllControllers v) = fill (mod_aux_ v) 0 7 0.
Proof. reflexivity. Qed.

Lemma Init_mod_aux (v : Voice) (reset_calibration : bool) :
  mod_aux_ (Init v reset_calibration) = mod_aux_ (ResetAllControllers v).
Proof. reflexivity. Qed.

Lemma Refresh_mod_aux_2 (v : Voice) :
  mod_aux_ (Refresh v) !! 2%nat = mod_aux_ v !! 2%nat.
Proof.
  unfold Refresh. simpl.
  rewrite !list_lookup_insert_ne by lia. reflexivity.
Qed.

Lemma ControlChange_mod_aux_2 (v : Voice) (controller value : Z) :
  mod_aux_ (ControlChange v controller value) !! 2%nat
  = mod_aux_ v !! 2%nat.
Proof.
  unfold ControlChange. simpl.
  destruct (controller =? kCCModulationWheelMsb); [reflexivity |].
  destruct (controller =? kCCBreathController);
    [apply list_lookup_insert_ne; lia |].
  destruct (controller =? kCCFootPedalMsb);
    [apply list_lookup_insert_ne; lia | reflexivity].
Qed.

Lemma step_mod_aux_2 (v : Voice) (e : Event) :
  mod_aux_ (step v e) !! 2%nat = mod_aux_ v !! 2%nat.
Proof.
  destruct e; simpl step.
  - reflexivity.
  - reflexivity.
  - apply ControlChange_mod_aux_2.
  - apply Refresh_mod_aux_2.
Qed.

Lemma run_mod_aux_2 (events : list Event) (v : Voice) :
  mod_aux_ (run v events) !! 2%nat = mod_aux_ v !! 2%nat.
Proof.
  revert v. induction events as [|e events IH]; intros v.
  - reflexivity.
  - unfold run in *. simpl fold_left. rewrite IH. apply step_mod_aux_2.
Qed.

(** C9: after Init the channel mod_aux[2] is zero, and no operation
    writes it: each of NoteOn, NoteOff, ControlChange (any controller
    number, any value) and Refresh leaves it as it was, so it is still
    zero after any sequence of them. *)
Theorem mod_aux_2_stays_zero (v : Voice) (reset_calibration : bool)
    (events : list Event) :
  length (mod_aux_ v) = 8%nat ->
  mod_aux_ (Init v reset_calibration) !! 2%nat = Some 0 /\
  (forall (u : Voice) (e : Event),
     mod_aux_ (step u e) !! 2%nat = mod_aux_ u !! 2%nat) /\
  mod_aux_ (run (Init v reset_calibration) events) !! 2%nat = Some 0.
Proof.
  intros Hlen.
  assert (Hinit : mod_aux_ (Init v reset_calibration) !! 2%nat = Some 0).
  { rewrite Init_mod_aux, ResetAllControllers_mod_aux. unfold fill.
    apply fill_from_inside; lia. }
  split; [exact Hinit |]. split; [exact step_mod_aux_2 |].
  rewrite run_mod_aux_2. exact Hinit.
Qed.

(** C10: ResetAllControllers, and Init through it, sets mod_pitch_bend to
    8192 and mod_wheel to 0 and zeroes the channels mod_aux[0] to
    mod_aux[6]; mod_aux[7] keeps the value it had. *)
Theorem ResetAllControllers_spares_mod_aux_7 (v : Voice)
    (reset_calibration : bool) :
  length (mod_aux_ v) = 8%nat ->
  (mod_pitch_bend_ (ResetAllControllers v) = 8192 /\
   mod_wheel_ (ResetAllControllers v) = 0 /\
   (forall i : nat, (i < 7)%nat ->
      mod_aux_ (ResetAllControllers v) !! i = Some 0) /\
   mod_aux_ (ResetAllControllers v) !! 7%nat = mod_aux_ v !! 7%nat) /\
  (mod_pitch_bend_ (Init v reset_calibration) = 8192 /\
   mod_wheel_ (Init v reset_calibration) = 0 /\
   (forall i : nat, (i < 7)%nat ->
      mod_aux_ (Init v reset_calibration) !! i = Some 0) /\
   mod_aux_ (Init v reset_calibration) !! 7%nat = mod_aux_ v !! 7%nat).
Proof.
  intros Hlen.
  assert (Hz : forall i : nat, (i < 7)%nat ->
                 mod_aux_ (ResetAllControllers v) !! i = Some 0).
  { intros i Hi. rewrite ResetAllControllers_mod_aux. unfold fill.
    apply fill_from_inside; lia. }
  assert (H7 : mod_aux_ (ResetAllControllers v) !! 7%nat
               = mod_aux_ v !! 7%nat).
  { rewrite ResetAllControllers_mod_aux. unfold fill.
    apply fill_from_outside. lia. }
  split.
  - repeat split; assumption.
  - rewrite Init_mod_aux. repeat split; assumption.
Qed.

End Controllers.

(** ** Typing: every operation keeps every field within its C++ type *)

Section Typing.

Context `{Resources}.

Lemma NoteToDacCode_u16 t note : is_u16 (NoteToDacCode t note).
Proof. unfold NoteToDacCode. apply wrap_u16_range. Qed.

Lemma fill_from_u16 a first count x :
  Forall is_u16 a -> is_u16 x -> Forall is_u16 (fill_from a first count x).
Proof.
  revert a first. induction count as [|k IH]; intros a first Ha Hx; simpl.
  - exact Ha.
  - apply IH; [apply Forall_insert |]; assumption.
Qed.



Local Ltac fields :=
  cbn [note_ note_source_ note_target_ note_portamento_ tuning_ gate_ dirty_
       note_dac_code_ calibrated_dac_code_ mod_pitch_bend_ mod_wheel_
       mod_aux_ mod_velocity_ pitch_bend_range_ vibrato_range_
       modulation_rate_ lfo_phase_ lfo_pll_phase_increment_
       portamento_phase_ portamento_phase_increment_
       portamento_exponential_shape_ retrigger_delay_ trigger_pulse_
       trigger_phase_increment_ trigger_phase_ trigger_duration_
       trigger_shape_ trigger_scale_ oscillator_].

Local Ltac in_type :=
  lazymatch goal with
  | |- _ (if ?c then _ else _) => destruct c; in_type
  | |- length (if ?c then _ else _) = _ => destruct c; in_type
  | |- is_u8 (wrap_u8 _) => apply wrap_u8_range
  | |- is_u16 (wrap_u16 _) => apply wrap_u16_range
  | |- is_u32 (wrap_u32 _) => apply wrap_u32_range
  | |- is_i32 (wrap_i32 _) => apply wrap_i32_range
  | |- is_u16 (NoteToDacCode _ _) => apply NoteToDacCode_u16
  | |- is_u32 (lut_portamento_increments _) =>
      apply lut_portamento_increments_u32
  | |- Forall is_u16 (<[_ := _]> _) => apply Forall_insert; in_type
  | |- Forall is_u16 (fill _ _ _ _) =>
      apply fill_from_u16; [in_type | split; reflexivity]
  | |- length (<[_ := _]> _) = _ => rewrite length_insert; in_type
  | |- length (fill _ _ _ _) = _ =>
      unfold fill; rewrite fill_from_length; in_type
  | |- _ => first [assumption | split; [discriminate | reflexivity]]
  end.

Lemma ResetAllControllers_well_typed (v : Voice) :
  well_typed v -> well_typed (ResetAllControllers v).
Proof. intros []. unfold ResetAllControllers. constructor; fields; in_type. Qed.


Lemma NoteOn_well_typed (v : Voice) (note velocity portamento : Z)
    (trigger : bool) :
  well_typed v -> is_i16 note -> is_u8 velocity ->
  well_typed (NoteOn v note velocity portamento trigger).
Proof.
  intros [] Hn Hv.
  assert (Hi : is_i32 note) by (unfold is_i16, is_i32 in *; lia).
  unfold NoteOn. constructor; fields; try in_type.
  destruct (portamento <=? 50); [in_type |].
  pose proof (CONSTRAIN_bounds
                (linear_increment
                   (lut_portamento_increments ((portamento - 51) ≪ 1))
                   (glide_delta note
                      (if portamento =? 0 then note else note_portamento_ v)))
                1 2147483647 ltac:(lia)).
  unfold is_u32. lia.
Qed.

Lemma NoteOff_well_typed (v : Voice) : well_typed v -> well_typed (NoteOff v).
Proof. intros []. unfold NoteOff. constructor; fields; assumption. Qed.

Lemma ControlChange_well_typed (v : Voice) (controller value : Z) :
  well_typed v -> is_u8 value ->
  well_typed (ControlChange v controller value).
Proof.
  intros [] Hv. unfold ControlChange. constructor; fields; in_type.
Qed.

Lemma Refresh_well_typed (v : Voice) : well_typed v -> well_typed (Refresh v).
Proof. intros []. unfold Refresh. constructor; fields; in_type. Qed.

Lemma step_well_typed (v : Voice) (e : Event) :
  well_typed v ->
  match e with
  | EvNoteOn note velocity _ _ => is_i16 note /\ is_u8 velocity
  | EvControlChange _ value => is_u8 value
  | _ => True
  end ->
  well_typed (step v e).
Proof.
  intros Hv He. destruct e; simpl.
  - apply NoteOn_well_typed; tauto.
  - apply NoteOff_well_typed, Hv.
  - apply ControlChange_well_typed; assumption.
  - apply Refresh_well_typed, Hv.
Qed.

Lemma refresh_n_well_typed (n : nat) (v : Voice) :
  well_typed v -> well_typed (refresh_n n v).
Proof.
  intros Hv. induction n as [|n IH]; [exact Hv |].
  apply Refresh_well_typed, IH.
Qed.

End Typing.

(** ** The claims on concrete voices *)

Section Examples.

Local Existing Instance example_resources.



Lemma power_on_calibration :
  calibrated_dac_code_ power_on = default_calibration.
Proof. reflexivity. Qed.

Lemma Refresh_completes_glide_witness :
  portamento_wraps (Refresh power_on) = true /\
  portamento_phase_increment_ (Refresh (Refresh power_on)) = 0 /\
  note_portamento_ (Refresh (Refresh power_on)) = 7680.
Proof.
  assert (Ht : is_i32 (note_target_ (Refresh power_on)))
    by (vm_compute; split; [discriminate | reflexivity]).
  assert (Hw : portamento_wraps (Refresh power_on) = true) by reflexivity.
  destruct (Refresh_completes_glide (Refresh power_on) Ht Hw)
    as (_ & Hinc & _ & _ & Hnote).
  split; [exact Hw |]. split; [exact Hinc | exact Hnote].
Defined.

Lemma NoteOn_glide_source_witness :
  note_portamento_ mid_glide = 7687 /\
  note_source_ mid_glide = 7680 /\ note_target_ mid_glide = 9216 /\
  note_source_ (NoteOn mid_glide 6144 100 60 false) = 7687 /\
  note_portamento_ (Refresh (NoteOn mid_glide 6144 100 0 false)) = 6144.
Proof.
  assert (Hn : is_i16 6144) by (unfold is_i16; lia).
  do 3 (split; [reflexivity |]).
  split.
  - destruct (NoteOn_glide_source mid_glide 6144 100 60 false Hn)
      as (_ & _ & Hsrc).
    rewrite Hsrc by lia. reflexivity.
  - destruct (NoteOn_glide_source mid_glide 6144 100 0 false Hn)
      as (_ & Hjump & _).
    apply Hjump. reflexivity.
Defined.

Lemma NoteOn_linear_increment_witness :
  portamento_phase_increment_ (NoteOn power_on 9216 100 60 false) = 6600704
  /\ 1 <= portamento_phase_increment_ mid_glide <= 2147483647.
Proof.
  split; [reflexivity |].
  assert (Hp : 50 < 60) by lia.
  destruct (NoteOn_linear_increment power_on 9216 100 60 false 3 Hp)
    as (_ & _ & _ & _ & Hkept).
  apply Hkept. intros k Hk.
  destruct k as [|[|[|k]]]; [reflexivity | reflexivity | reflexivity | lia].
Defined.

Lemma retrigger_gap_precedes_envelope_witness :
  gate_ gated = true /\
  trigger_dac_code (refresh_n 1 (NoteOn gated 7680 100 0 true)) = 39187.
Proof.
  assert (Hg : gate_ gated = true) by reflexivity.
  split; [exact Hg |].
  destruct (retrigger_gap_precedes_envelope gated 7680 100 0 1 Hg)
    as (_ & Hd & Hcode).
  rewrite Hcode; [reflexivity |]. rewrite Hd. discriminate.
Defined.

Lemma trigger_pulse_countdown_witness :
  trigger_pulse_ (refresh_n 15 (NoteOn power_on 7680 100 0 true)) = 1 /\
  trigger_pulse_ (refresh_n 16 (NoteOn power_on 7680 100 0 true)) = 0.
Proof.
  assert (Hd : is_u8 (trigger_duration_ power_on))
    by (vm_compute; split; [discriminate | reflexivity]).
  split.
  - destruct (trigger_pulse_countdown power_on 7680 100 0 15 Hd)
      as (_ & Hn & _).
    rewrite Hn. reflexivity.
  - destruct (trigger_pulse_countdown power_on 7680 100 0 16 Hd)
      as (_ & _ & Hz).
    apply Hz. vm_compute. discriminate.
Defined.

Lemma mod_aux_2_stays_zero_witness :
  mod_aux_
    (run (Init zero_voice true)
         [EvNoteOn 7680 100 0 true; EvRefresh; EvControlChange 2 64;
          EvControlChange 4 127; EvControlChange 1 90; EvRefresh;
          EvNoteOff])
  !! 2%nat = Some 0.
Proof.
  apply (mod_aux_2_stays_zero zero_voice true). reflexivity.
Defined.

Lemma ResetAllControllers_spares_mod_aux_7_witness :
  mod_aux_ aux7_set !! 7%nat = Some 2 /\
  mod_aux_ (ResetAllControllers aux7_set) !! 7%nat = Some 2 /\
  mod_aux_ (Init aux7_set false) !! 7%nat = Some 2 /\
  mod_aux_ (ResetAllControllers aux7_set) !! 6%nat = Some 0.
Proof.
  assert (Hlen : length (mod_aux_ aux7_set) = 8%nat) by reflexivity.
  destruct (ResetAllControllers_spares_mod_aux_7 aux7_set false Hlen)
    as ((_ & _ & Hz & H7) & (_ & _ & _ & H7i)).
  split; [reflexivity |].
  split; [rewrite H7; reflexivity |].
  split; [rewrite H7i; reflexivity |].
  apply Hz. lia.
Defined.

End Examples.

(** * Further properties of [voice.cc] *)

(** ** Quantization: brackets, octave boundaries, the default table *)

Section QuantizationMore.

Context `{Resources}.

Lemma octave_index_div note : octave_index note = clamp_note note / kOctave.
Proof. unfold octave_index. rewrite octave_loop_clamped. reflexivity. Qed.

(** X1: For every note, in range or not, the code lies between the two table
    entries of its octave bracket: the interpolation never overshoots. *)
Theorem NoteToDacCode_within_bracket (t : list Z) (note : Z) :
  Forall is_u16 t ->
  Z.min (at_index t (octave_index note)) (at_index t (octave_index note + 1))
  <= NoteToDacCode t note
  <= Z.max (at_index t (octave_index note))
           (at_index t (octave_index note + 1)).
Proof.
  intros Ht. rewrite NoteToDacCode_clamped by exact Ht.
  rewrite octave_index_div.
  pose proof (Z.mod_pos_bound (clamp_note note) kOctave
                ltac:(rewrite kOctave_val; lia)) as Hr.
  destruct (Z.le_gt_cases (at_index t (clamp_note note / kOctave))
              (at_index t (clamp_note note / kOctave + 1))) as [Hle | Hgt].
  - pose proof (interpolate_up _ _ _ Hle Hr). lia.
  - assert (Hge : at_index t (clamp_note note / kOctave + 1)
                  <= at_index t (clamp_note note / kOctave)) by lia.
    pose proof (interpolate_down _ _ _ Hge Hr). lia.
Qed.

(** X2: A note on an octave boundary gets the table entry of that octave,
    exactly. *)
Theorem NoteToDacCode_at_octave (t : list Z) (k : Z) :
  Forall is_u16 t -> 0 <= k < kMaxNote / kOctave ->
  NoteToDacCode t (k * kOctave) = at_index t k.
Proof.
  intros Ht Hk. change (kMaxNote / kOctave) with 10 in Hk.
  rewrite NoteToDacCode_in_range
    by (auto; rewrite kOctave_val, kMaxNote_val; lia).
  rewrite Z.div_mul, Z.mod_mul by (rewrite kOctave_val; lia).
  unfold interpolate. rewrite Z.mul_0_r.
  change (0 ÷ kOctave) with 0. lia.
Qed.




Lemma reset_calibration_of_eleven (t : list Z) :
  length t = 11%nat -> reset_calibration_from t 0 11 = default_calibration.
Proof.
  intros Hlen.
  do 11 (destruct t as [|? t]; [discriminate Hlen |]).
  destruct t; [reflexivity | discriminate Hlen].
Qed.

Lemma default_calibration_at (o : Z) :
  0 <= o <= 10 -> at_index default_calibration o = 54586 - 5133 * o.
Proof.
  intros Ho.
  assert (Hcases : o = 0 \/ o = 1 \/ o = 2 \/ o = 3 \/ o = 4 \/ o = 5 \/
                   o = 6 \/ o = 7 \/ o = 8 \/ o = 9 \/ o = 10) by lia.
  repeat (destruct Hcases as [-> | Hcases]; [reflexivity |]).
  subst o. reflexivity.
Qed.

(** X4: On the eleven-entry default table that [Init(true)] writes, the
    quantization is one straight line over the whole note range:
    54586 - floor(5133 * note / 1536). *)
Theorem Init_default_quantization (v : Voice) (note : Z) :
  kNumOctaves = 11%nat ->
  length (calibrated_dac_code_ v) = 11%nat ->
  0 <= note < kMaxNote ->
  NoteToDacCode (calibrated_dac_code_ (Init v true)) note
  = 54586 - (5133 * note) / kOctave.
Proof.
  intros Hk Hlen Hn.
  change (calibrated_dac_code_ (Init v true))
    with (reset_calibration_from (calibrated_dac_code_ v) 0 kNumOctaves).
  rewrite Hk, reset_calibration_of_eleven by exact Hlen.
  rewrite NoteToDacCode_in_range by (auto using default_calibration_u16).
  rewrite kMaxNote_val in Hn. rewrite kOctave_val.
  assert (Ho : 0 <= note / 1536 < 10).
  { split; [apply Z.div_pos | apply Z.div_lt_upper_bound]; lia. }
  pose proof (Z.mod_pos_bound note 1536 ltac:(lia)) as Hr.
  rewrite !default_calibration_at by lia.
  unfold interpolate. rewrite kOctave_val.
  replace (54586 - 5133 * (note / 1536 + 1) - (54586 - 5133 * (note / 1536)))
    with (- 5133) by lia.
  change (- 5133 * (note mod 1536)) with (- (5133) * (note mod 1536)).
  pose proof (quot_scaled_neg 5133 (note mod 1536)) as Hneg.
  rewrite kOctave_val in Hneg. rewrite Hneg.
  rewrite Z.quot_div_nonneg by lia.
  rewrite (Z.div_mod note 1536) at 3 by lia.
  replace (5133 * (1536 * (note / 1536) + note mod 1536))
    with (5133 * (note mod 1536) + 5133 * (note / 1536) * 1536) by lia.
  rewrite Z.div_add by lia. lia.
Qed.

End QuantizationMore.

(** ** Calibration and the published code *)

Section CalibrationMore.

Context `{Resources}.


Lemma copy_from_outside src dst i count (j : nat) :
  (j < i \/ i + count <= j)%nat -> copy_from src dst i count !! j = dst !! j.
Proof.
  revert dst i. induction count as [|k IH]; intros dst i Hj; simpl.
  - reflexivity.
  - rewrite IH by lia. apply list_lookup_insert_ne. lia.
Qed.

Lemma copy_from_inside src dst i count (j : nat) :
  (i <= j < i + count)%nat -> (j < length dst)%nat ->
  copy_from src dst i count !! j = Some (at_index src (Z.of_nat j)).
Proof.
  revert dst i. induction count as [|k IH]; intros dst i Hj Hlen; simpl.
  - lia.
  - destruct (decide (j = i)) as [-> | Hne].
    + rewrite copy_from_outside by lia.
      apply list_lookup_insert_eq. exact Hlen.
    + apply IH; [lia |]. rewrite length_insert. exact Hlen.
Qed.

Lemma copy_from_whole src dst :
  length src = length dst -> copy_from src dst 0 (length dst) = src.
Proof.
  intros Hlen. apply list_eq. intros j.
  destruct (decide (j < length dst)%nat) as [Hlt | Hge].
  - rewrite copy_from_inside by lia. unfold at_index.
    rewrite Nat2Z.id.
    destruct (lookup_lt_is_Some_2 src j ltac:(lia)) as [x Hx].
    rewrite Hx. reflexivity.
  - rewrite copy_from_outside by lia.
    rewrite !lookup_ge_None_2 by lia. reflexivity.
Qed.

(** X5: [Calibrate] overwrites the first kNumOctaves entries with the
    caller's and keeps any further entry; when both tables have
    kNumOctaves entries the voice's table becomes the caller's, and the
    quantization is the caller's from then on.  [Calibrate] does not mark
    the voice dirty and does not touch the published code. *)
Theorem Calibrate_installs_table (v : Voice) (t : list Z) :
  (forall i : nat, (i < kNumOctaves)%nat ->
     (i < length (calibrated_dac_code_ v))%nat ->
     calibrated_dac_code_ (Calibrate v t) !! i
     = Some (at_index t (Z.of_nat i))) /\
  (forall i : nat, (kNumOctaves <= i)%nat ->
     calibrated_dac_code_ (Calibrate v t) !! i
     = calibrated_dac_code_ v !! i) /\
  (length t = kNumOctaves ->
   length (calibrated_dac_code_ v) = kNumOctaves ->
   calibrated_dac_code_ (Calibrate v t) = t /\
   forall note,
     NoteToDacCode (calibrated_dac_code_ (Calibrate v t)) note
     = NoteToDacCode t note) /\
  dirty_ (Calibrate v t) = dirty_ v /\
  note_dac_code_ (Calibrate v t) = note_dac_code_ v.
Proof.
  change (calibrated_dac_code_ (Calibrate v t))
    with (copy_from t (calibrated_dac_code_ v) 0 kNumOctaves).
  split; [| split; [| split; [| split; reflexivity]]].
  - intros i Hi Hlen. apply copy_from_inside; lia.
  - intros i Hi. apply copy_from_outside. lia.
  - intros Ht Hv.
    assert (E : copy_from t (calibrated_dac_code_ v) 0 kNumOctaves = t).
    { rewrite <- Hv in Ht |- *. apply copy_from_whole. exact Ht. }
    rewrite E. split; reflexivity.
Qed.

(** The three outcomes of the last [if] of [Refresh]. *)
Lemma Refresh_requantizes (v : Voice) :
  dirty_ (Refresh v) = false /\
  calibrated_dac_code_ (Refresh v) = calibrated_dac_code_ v /\
  ((note_ (Refresh v) = note_ v /\ dirty_ v = false /\
    note_dac_code_ (Refresh v) = note_dac_code_ v) \/
   ((note_ (Refresh v) <> note_ v \/ dirty_ v = true) /\
    note_dac_code_ (Refresh v)
    = NoteToDacCode (calibrated_dac_code_ v) (note_ (Refresh v)))).
Proof.
  unfold Refresh.
  cbn [note_ dirty_ note_dac_code_ calibrated_dac_code_].
  match goal with
  | |- context [negb (?n =? note_ v) || dirty_ v] => generalize n
  end.
  intros n. destruct (Z.eqb_spec n (note_ v)) as [-> | Hne];
    destruct (dirty_ v); simpl; auto 6.
Qed.

Lemma Refresh_code_current (v : Voice) :
  code_current v ->
  note_dac_code_ (Refresh v)
  = NoteToDacCode (calibrated_dac_code_ v) (note_ (Refresh v)).
Proof.
  intros Hc. destruct (Refresh_requantizes v) as (_ & _ & [Hsame | Hnew]).
  - destruct Hsame as (Hn & Hd & Hcode). rewrite Hcode, Hn.
    destruct Hc as [Hc | Hc]; [congruence | exact Hc].
  - apply Hnew.
Qed.

Lemma step_calibrated_dac_code (v : Voice) (e : Event) :
  calibrated_dac_code_ (step v e) = calibrated_dac_code_ v.
Proof. destruct e; reflexivity. Qed.

Lemma run_calibrated_dac_code (events : list Event) (v : Voice) :
  calibrated_dac_code_ (run v events) = calibrated_dac_code_ v.
Proof.
  revert v. induction events as [|e events IH]; intros v; [reflexivity |].
  unfold run in *. simpl fold_left. rewrite IH.
  apply step_calibrated_dac_code.
Qed.

Lemma step_code_current (v : Voice) (e : Event) :
  code_current v -> code_current (step v e).
Proof.
  intros Hc. destruct e; try exact Hc.
  right. simpl step. rewrite Refresh_code_current by exact Hc.
  destruct (Refresh_requantizes v) as (_ & -> & _). reflexivity.
Qed.

Lemma run_code_current (events : list Event) (v : Voice) :
  code_current v -> code_current (run v events).
Proof.
  revert v. induction events as [|e events IH]; intros v Hc; [exact Hc |].
  unfold run in *. simpl fold_left. apply IH, step_code_current, Hc.
Qed.

(** X6: The published code follows the published note.  If the code of a
    voice is current (or the voice is marked dirty), then after any
    sequence of NoteOn, NoteOff, ControlChange and Refresh it is still
    current, and right after every Refresh the published code is exactly
    the quantization of the published note with the voice's table, with
    the dirty mark cleared. *)
Theorem published_code_follows_note (v : Voice) (events : list Event) :
  code_current v ->
  code_current (run v events) /\
  dirty_ (Refresh (run v events)) = false /\
  note_dac_code_ (Refresh (run v events))
  = NoteToDacCode (calibrated_dac_code_ v)
                  (note_ (Refresh (run v events))).
Proof.
  intros Hc. pose proof (run_code_current events v Hc) as Hr.
  split; [exact Hr |]. split.
  - apply Refresh_requantizes.
  - rewrite Refresh_code_current by exact Hr.
    rewrite run_calibrated_dac_code. reflexivity.
Qed.

(** X7: The requantization is lazy: a Refresh that composes the pitch already
    published, on a voice that is not dirty, leaves the published code
    alone, also when the table has changed under it; any other Refresh
    publishes the quantization of the new pitch. *)
Theorem Refresh_skips_unchanged_pitch (v : Voice) :
  (note_ (Refresh v) = note_ v -> dirty_ v = false ->
   note_dac_code_ (Refresh v) = note_dac_code_ v) /\
  (note_ (Refresh v) <> note_ v \/ dirty_ v = true ->
   note_dac_code_ (Refresh v)
   = NoteToDacCode (calibrated_dac_code_ v) (note_ (Refresh v))).
Proof.
  destruct (Refresh_requantizes v) as (_ & _ & [Hsame | Hnew]).
  - destruct Hsame as (Hn & Hd & Hcode). split.
    + intros _ _. exact Hcode.
    + intros [Hne | Hdirty]; [contradiction | congruence].
  - destruct Hnew as [Hcond Hcode]. split.
    + intros Hn Hd. destruct Hcond as [Hne | Hdirty];
        [contradiction | congruence].
    + intros _. exact Hcode.
Qed.

End CalibrationMore.

(** ** Glides: duration, rest, range of the interpolated pitch *)

Section GlideMore.

Context `{Resources}.

Lemma refresh_n_add (k n : nat) (v : Voice) :
  refresh_n (k + n) v = refresh_n k (refresh_n n v).
Proof. induction k as [|k IH]; simpl; [| rewrite IH]; reflexivity. Qed.

Lemma Refresh_wrap_settles (v : Voice) :
  portamento_wraps v = true -> settled (Refresh v).
Proof.
  intros Hw. unfold portamento_wraps in Hw. unfold settled, Refresh.
  cbn [portamento_phase_ portamento_phase_increment_ note_source_
       note_target_].
  rewrite Hw. repeat split.
Qed.

Lemma Refresh_settled (v : Voice) :
  settled v -> is_i32 (note_target_ v) ->
  settled (Refresh v) /\ note_target_ (Refresh v) = note_target_ v /\
  note_portamento_ (Refresh v) = note_target_ v.
Proof.
  intros (Hp & Hi & Hs) Ht. unfold settled, Refresh.
  cbn [portamento_phase_ portamento_phase_increment_ note_source_
       note_target_ note_portamento_].
  rewrite Hp, Hi, Hs. change (wrap_u32 (0 + 0) <? 0) with false.
  cbn iota. repeat split. apply glide_at_rest, Ht.
Qed.

Lemma refresh_n_settled (n : nat) (v : Voice) :
  settled v -> is_i32 (note_target_ v) ->
  settled (refresh_n n v) /\ note_target_ (refresh_n n v) = note_target_ v.
Proof.
  intros Hs Ht. induction n as [|n [IHs IHt]]; [split; [exact Hs | reflexivity] |].
  change (refresh_n (S n) v) with (Refresh (refresh_n n v)).
  destruct (Refresh_settled (refresh_n n v) IHs) as (Hs' & Ht' & _).
  - rewrite IHt. exact Ht.
  - split; [exact Hs' | rewrite Ht'; exact IHt].
Qed.

(** X8: A voice without a glide in progress stays that way under Refresh, and
    on every tick its interpolated pitch is the target. *)
Theorem settled_voice_holds_target (v : Voice) (n : nat) :
  settled v -> is_i32 (note_target_ v) ->
  settled (refresh_n n v) /\
  note_target_ (refresh_n n v) = note_target_ v /\
  note_portamento_ (refresh_n (S n) v) = note_target_ v.
Proof.
  intros Hs Ht. destruct (refresh_n_settled n v Hs Ht) as [Hsn Htn].
  split; [exact Hsn |]. split; [exact Htn |].
  change (refresh_n (S n) v) with (Refresh (refresh_n n v)).
  destruct (Refresh_settled (refresh_n n v) Hsn) as (_ & _ & Hp).
  - rewrite Htn. exact Ht.
  - rewrite Hp. exact Htn.
Qed.

(** X9: How long a glide lasts.  With a nonzero increment and
    q = (2^32 - 1 - phase) / increment: each of the first q ticks leaves
    the increment in place and does not complete the glide; tick q + 1
    completes it; and from then on, on every tick, the voice is settled
    and the interpolated pitch is the target. *)
Theorem glide_duration (v : Voice) (m : nat) :
  is_u32 (portamento_phase_ v) -> is_u32 (portamento_phase_increment_ v) ->
  0 < portamento_phase_increment_ v -> is_i32 (note_target_ v) ->
  (Z.of_nat m
   <= (2 ^ 32 - 1 - portamento_phase_ v) / portamento_phase_increment_ v ->
   portamento_phase_increment_ (refresh_n m v)
   = portamento_phase_increment_ v /\
   portamento_phase_ (refresh_n m v)
   = portamento_phase_ v + Z.of_nat m * portamento_phase_increment_ v) /\
  ((2 ^ 32 - 1 - portamento_phase_ v) / portamento_phase_increment_ v
   < Z.of_nat m ->
   settled (refresh_n m v) /\
   note_portamento_ (refresh_n m v) = note_target_ v).
Proof.
  intros Hp Hi Hpos Ht. pose proof Hp as Hp'. pose proof Hi as Hi'.
  unfold is_u32 in Hp', Hi'.
  set (q := (2 ^ 32 - 1 - portamento_phase_ v)
            / portamento_phase_increment_ v).
  assert (Hq0 : 0 <= q) by (apply Z.div_pos; lia).
  assert (Hq : q * portamento_phase_increment_ v
               <= 2 ^ 32 - 1 - portamento_phase_ v).
  { pose proof (Z.mul_div_le (2 ^ 32 - 1 - portamento_phase_ v)
                  (portamento_phase_increment_ v) Hpos). fold q in H0. lia. }
  split.
  - intros Hm.
    destruct (glide_in_progress m v Hp Hi) as [Ep Ei]; [nia |].
    split; [exact Ei | exact Ep].
  - intros Hm.
    destruct (glide_arrives v Hp Hi Hpos Ht) as [_ Harr].
    destruct (Harr (Z.to_nat q) ltac:(fold q; lia))
      as (Hw & Hnote & _ & _).
    pose proof (Refresh_wrap_settles _ Hw) as Hs.
    change (Refresh (refresh_n (Z.to_nat q) v))
      with (refresh_n (S (Z.to_nat q)) v) in Hs.
    assert (Htq : note_target_ (refresh_n (S (Z.to_nat q)) v)
                  = note_target_ v) by apply refresh_n_note_target.
    replace m with ((m - S (Z.to_nat q)) + S (Z.to_nat q))%nat by lia.
    rewrite refresh_n_add.
    destruct (m - S (Z.to_nat q))%nat as [|k] eqn:Ek.
    + split; [exact Hs | exact Hnote].
    + destruct (refresh_n_settled (S k) _ Hs) as [Hsk _];
        [rewrite Htq; exact Ht |].
      split; [exact Hsk |].
      change (refresh_n (S k) (refresh_n (S (Z.to_nat q)) v))
        with (Refresh (refresh_n k (refresh_n (S (Z.to_nat q)) v))).
      destruct (refresh_n_settled k _ Hs) as [Hsk' Htk];
        [rewrite Htq; exact Ht |].
      destruct (Refresh_settled _ Hsk') as (_ & _ & Hpk).
      * rewrite Htk, Htq. exact Ht.
      * rewrite Hpk, Htk. exact Htq.
Qed.

(** The interpolation of [Refresh] for a 16-bit level. *)
Lemma interpolation_between (s t level : Z) :
  is_i32 s -> is_i32 t -> Z.abs (t - s) <= 32768 -> is_u16 level ->
  Z.min s t
  <= wrap_i32 (s + (wrap_i32 (wrap_i32 (t - s) * level) ≫ 16))
  <= Z.max s t.
Proof.
  unfold is_i32, is_u16. intros Hs Ht Hd Hl.
  rewrite (wrap_i32_id (t - s)) by (unfold is_i32; lia).
  rewrite (wrap_i32_id ((t - s) * level)) by (unfold is_i32; nia).
  rewrite Z.shiftr_div_pow2 by lia.
  assert (Hq : Z.min 0 (t - s) <= (t - s) * level / 2 ^ 16
               <= Z.max 0 (t - s)).
  { destruct (Z.le_gt_cases 0 (t - s)).
    - split.
      + transitivity 0; [lia | apply Z.div_pos; nia].
      + transitivity (t - s); [apply Z.div_le_upper_bound; nia | lia].
    - split.
      + transitivity (t - s); [lia | apply Z.div_le_lower_bound; nia].
      + transitivity 0; [| lia].
        apply Z.lt_succ_r. apply Z.div_lt_upper_bound; nia. }
  rewrite wrap_i32_id by (unfold is_i32; lia). lia.
Qed.

(** X10: The interpolated pitch never leaves the interval between the source and
    the target of the glide, for both shapes and whatever the tables
    hold, as long as the two are at most 32768 units (256 semitones)
    apart, which keeps the 32-bit product from overflowing. *)
Theorem Refresh_pitch_between (v : Voice) :
  is_i32 (note_source_ v) -> is_i32 (note_target_ v) ->
  Z.abs (note_target_ v - note_source_ v) <= 32768 ->
  Z.min (note_source_ v) (note_target_ v)
  <= note_portamento_ (Refresh v)
  <= Z.max (note_source_ v) (note_target_ v).
Proof.
  intros Hs Ht Hd. unfold Refresh. cbn [note_portamento_].
  match goal with
  | |- context [if ?w then note_target_ v else note_source_ v] =>
      destruct w
  end.
  - pose proof (interpolation_between (note_target_ v) (note_target_ v)
                  (wrap_u16
                     (if portamento_exponential_shape_ v
                      then Interpolate824_u16 lut_env_expo 0
                      else 0 ≫ 16))
                  Ht Ht ltac:(lia) (wrap_u16_range _)).
    lia.
  - match goal with
    | |- context [wrap_u16 ?l] =>
        pose proof (interpolation_between (note_source_ v) (note_target_ v)
                      (wrap_u16 l) Hs Ht Hd (wrap_u16_range _))
    end.
    lia.
Qed.

End GlideMore.

(** ** Pitch composition *)

Section PitchMore.

Context `{Resources}.

Lemma wrap_i32_idem z : wrap_i32 (wrap_i32 z) = wrap_i32 z.
Proof. apply wrap_i32_id, wrap_i32_range. Qed.

Lemma lfo_triangle_range p :
  is_u32 p -> -32768 <= lfo_triangle p <= 32767.
Proof.
  unfold is_u32. intros Hp.
  destruct (Z.lt_ge_cases p (2 ^ 31)).
  - rewrite lfo_triangle_rising by lia.
    assert (0 <= p ≫ 15 < 2 ^ 16); [| lia].
    rewrite Z.shiftr_div_pow2 by lia. split.
    + apply Z.div_pos; lia.
    + apply Z.div_lt_upper_bound; lia.
  - rewrite lfo_triangle_falling by lia.
    assert (2 ^ 16 <= p ≫ 15 < 2 ^ 17); [| lia].
    rewrite Z.shiftr_div_pow2 by lia. split.
    + apply Z.div_le_lower_bound; lia.
    + apply Z.div_lt_upper_bound; lia.
Qed.

Lemma Refresh_lfo_phase_u32 (v : Voice) : is_u32 (lfo_phase_ (Refresh v)).
Proof.
  unfold Refresh. cbn [lfo_phase_].
  destruct (modulation_rate_ v <? 100); apply wrap_u32_range.
Qed.

(** Whether or not the last [if] of [Refresh] is taken, the published note
    is the pitch composed on that tick. *)
Lemma Refresh_note_composition (v : Voice) :
  note_ (Refresh v)
  = wrap_i32
      (wrap_i32
         (wrap_i32
            (note_portamento_ (Refresh v)
             + (wrap_i32 (wrap_i32 (mod_pitch_bend_ v - 8192)
                          * pitch_bend_range_ v) ≫ 6))
          + tuning_ v)
       + (wrap_i32
            (wrap_i32 (lfo_triangle (lfo_phase_ (Refresh v)) * mod_wheel_ v)
             * vibrato_range_ v) ≫ 15)).
Proof.
  unfold Refresh. cbn [note_ note_portamento_ lfo_phase_].
  match goal with
  | |- context [negb (?n =? note_ v) || dirty_ v] => set (composed := n)
  end.
  destruct (Z.eqb_spec composed (note_ v)) as [E | E];
    destruct (dirty_ v); simpl; congruence.
Qed.

(** X11: With the pitch bend at its centre 8192, and the mod wheel or the
    vibrato range at zero, the published note is the interpolated pitch
    plus the tuning; this is the case right after ResetAllControllers. *)
Theorem Refresh_neutral_controllers (v : Voice) :
  mod_pitch_bend_ v = 8192 ->
  mod_wheel_ v = 0 \/ vibrato_range_ v = 0 ->
  note_ (Refresh v) = wrap_i32 (note_portamento_ (Refresh v) + tuning_ v) /\
  note_ (Refresh (ResetAllControllers v))
  = wrap_i32 (note_portamento_ (Refresh v) + tuning_ v).
Proof.
  intros Hb Hw.
  assert (Hnp : wrap_i32 (note_portamento_ (Refresh v))
                = note_portamento_ (Refresh v)).
  { unfold Refresh. cbn [note_portamento_]. apply wrap_i32_idem. }
  split.
  - rewrite Refresh_note_composition, Hb.
    change (wrap_i32 (8192 - 8192)) with 0.
    rewrite Z.mul_0_l. change (wrap_i32 0 ≫ 6) with 0.
    rewrite Z.add_0_r, Hnp.
    replace (wrap_i32
               (wrap_i32 (lfo_triangle (lfo_phase_ (Refresh v)) * mod_wheel_ v)
                * vibrato_range_ v)) with 0.
    + change (0 ≫ 15) with 0. rewrite Z.add_0_r. apply wrap_i32_idem.
    + destruct Hw as [-> | ->].
      * rewrite Z.mul_0_r. change (wrap_i32 0) with 0.
        rewrite Z.mul_0_l. reflexivity.
      * rewrite Z.mul_0_r. reflexivity.
  - rewrite Refresh_note_composition.
    change (mod_pitch_bend_ (ResetAllControllers v)) with 8192.
    change (mod_wheel_ (ResetAllControllers v)) with 0.
    change (tuning_ (ResetAllControllers v)) with (tuning_ v).
    change (note_portamento_ (Refresh (ResetAllControllers v)))
      with (note_portamento_ (Refresh v)).
    change (wrap_i32 (8192 - 8192)) with 0.
    rewrite Z.mul_0_l. change (wrap_i32 0 ≫ 6) with 0.
    rewrite Z.add_0_r, Hnp, Z.mul_0_r.
    change (wrap_i32 0) with 0. rewrite Z.mul_0_l.
    change (wrap_i32 0 ≫ 15) with 0.
    rewrite Z.add_0_r. apply wrap_i32_idem.
Qed.

Lemma shifted_product_bounds (x c k z : Z) :
  - z <= x <= z -> 0 <= c -> 0 < k -> z <= 2 ^ k ->
  - c <= (x * c) ≫ k <= c.
Proof.
  intros Hx Hc Hk Hz. rewrite Z.shiftr_div_pow2 by lia.
  assert (0 < 2 ^ k) by (apply Z.pow_pos_nonneg; lia).
  split.
  - apply Z.div_le_lower_bound; nia.
  - apply Z.div_le_upper_bound; nia.
Qed.

(** X12: The modulation depth is bounded: for a 14-bit pitch bend and 8-bit
    settings, the published note differs from interpolated pitch plus
    tuning by at most 128 units (a semitone) per unit of pitch bend range,
    plus mod wheel times vibrato range.  Pitch and tuning are taken within
    2^29 so that no 32-bit sum wraps. *)
Theorem Refresh_modulation_depth (v : Voice) :
  0 <= mod_pitch_bend_ v < 16384 ->
  is_u8 (pitch_bend_range_ v) -> is_u8 (mod_wheel_ v) ->
  is_u8 (vibrato_range_ v) ->
  Z.abs (note_portamento_ (Refresh v)) <= 2 ^ 29 ->
  Z.abs (tuning_ v) <= 2 ^ 29 ->
  Z.abs (note_ (Refresh v) - (note_portamento_ (Refresh v) + tuning_ v))
  <= 128 * pitch_bend_range_ v + mod_wheel_ v * vibrato_range_ v.
Proof.
  unfold is_u8. intros Hb Hr Hw Hv Hnp Ht.
  rewrite Refresh_note_composition.
  pose proof (lfo_triangle_range _ (Refresh_lfo_phase_u32 v)) as Hlfo.
  set (lfo := lfo_triangle (lfo_phase_ (Refresh v))) in *.
  set (np := note_portamento_ (Refresh v)) in *.
  rewrite (wrap_i32_id (mod_pitch_bend_ v - 8192)) by (unfold is_i32; lia).
  rewrite (wrap_i32_id ((mod_pitch_bend_ v - 8192) * pitch_bend_range_ v))
    by (unfold is_i32; nia).
  assert (Hlw : - (32768 * 255) <= lfo * mod_wheel_ v <= 32768 * 255)
    by nia.
  assert (Hlwv : - (32768 * 255 * 255)
                 <= lfo * mod_wheel_ v * vibrato_range_ v
                 <= 32768 * 255 * 255).
  { generalize dependent (lfo * mod_wheel_ v). intros lw Hlw. nia. }
  rewrite (wrap_i32_id (lfo * mod_wheel_ v)) by (unfold is_i32; lia).
  rewrite (wrap_i32_id (lfo * mod_wheel_ v * vibrato_range_ v))
    by (unfold is_i32; lia).
  assert (Hbend : - (128 * pitch_bend_range_ v)
                  <= ((mod_pitch_bend_ v - 8192) * pitch_bend_range_ v) ≫ 6
                  <= 128 * pitch_bend_range_ v).
  { rewrite Z.shiftr_div_pow2 by lia. split.
    - apply Z.div_le_lower_bound; nia.
    - apply Z.div_le_upper_bound; nia. }
  assert (Hvib : - (mod_wheel_ v * vibrato_range_ v)
                 <= (lfo * mod_wheel_ v * vibrato_range_ v) ≫ 15
                 <= mod_wheel_ v * vibrato_range_ v).
  { rewrite <- Z.mul_assoc.
    apply (shifted_product_bounds lfo _ 15 32768); nia. }
  assert (Hprod : mod_wheel_ v * vibrato_range_ v <= 65025) by nia.
  set (bend := ((mod_pitch_bend_ v - 8192) * pitch_bend_range_ v) ≫ 6) in *.
  set (vib := (lfo * mod_wheel_ v * vibrato_range_ v) ≫ 15) in *.
  rewrite (wrap_i32_id (np + bend)) by (unfold is_i32; lia).
  rewrite (wrap_i32_id (np + bend + tuning_ v)) by (unfold is_i32; lia).
  rewrite wrap_i32_id by (unfold is_i32; lia).
  lia.
Qed.

End PitchMore.

(** ** The trigger envelope *)

Section TriggerMore.

Context `{Resources}.

Lemma Refresh_trigger_idle (v : Voice) :
  trigger_idle v -> trigger_idle (Refresh v).
Proof.
  intros [Hp Hi]. unfold trigger_idle, Refresh.
  cbn [trigger_phase_ trigger_phase_increment_].
  rewrite Hi, Hp. split; reflexivity.
Qed.

Lemma refresh_n_trigger_idle (n : nat) (v : Voice) :
  trigger_idle v -> trigger_idle (refresh_n n v).
Proof.
  intros Hidle. induction n as [|n IH]; [exact Hidle |].
  apply Refresh_trigger_idle, IH.
Qed.

Lemma trigger_idle_0V (v : Voice) :
  trigger_idle v ->
  trigger_dac_code v = at_index (calibrated_dac_code_ v) 3.
Proof.
  intros [Hp Hi]. unfold trigger_dac_code. rewrite Hp, Hi. reflexivity.
Qed.

Lemma trigger_in_progress (k : nat) (v : Voice) :
  is_u32 (trigger_phase_ v) -> is_u32 (trigger_phase_increment_ v) ->
  trigger_phase_ v + Z.of_nat k * trigger_phase_increment_ v < 2 ^ 32 ->
  trigger_phase_ (refresh_n k v)
  = trigger_phase_ v + Z.of_nat k * trigger_phase_increment_ v /\
  trigger_phase_increment_ (refresh_n k v) = trigger_phase_increment_ v.
Proof.
  unfold is_u32. intros Hp Hi. induction k as [|k IH]; intros Hk.
  - simpl. split; [lia | reflexivity].
  - destruct IH as [IHp IHi]; [nia |].
    change (refresh_n (S k) v) with (Refresh (refresh_n k v)).
    unfold Refresh. cbn [trigger_phase_ trigger_phase_increment_].
    rewrite IHp, IHi.
    destruct (Z.eqb_spec (trigger_phase_increment_ v) 0) as [E | E].
    + rewrite E. split; [lia | reflexivity].
    + rewrite wrap_u32_id by (unfold is_u32; nia).
      destruct (Z.ltb_spec
                  (trigger_phase_ v
                   + Z.of_nat k * trigger_phase_increment_ v
                   + trigger_phase_increment_ v)
                  (trigger_phase_increment_ v)); [nia |].
      split; [lia | reflexivity].
Qed.

Lemma trigger_wrap_idles (v : Voice) :
  is_u32 (trigger_phase_ v) -> is_u32 (trigger_phase_increment_ v) ->
  0 < trigger_phase_increment_ v ->
  2 ^ 32 <= trigger_phase_ v + trigger_phase_increment_ v ->
  trigger_idle (Refresh v).
Proof.
  unfold is_u32. intros Hp Hi Hpos Hover. unfold trigger_idle, Refresh.
  cbn [trigger_phase_ trigger_phase_increment_].
  destruct (Z.eqb_spec (trigger_phase_increment_ v) 0) as [E | E]; [lia |].
  assert (Hw : wrap_u32 (trigger_phase_ v + trigger_phase_increment_ v)
               = trigger_phase_ v + trigger_phase_increment_ v - 2 ^ 32).
  { unfold wrap_u32.
    replace (trigger_phase_ v + trigger_phase_increment_ v)
      with (trigger_phase_ v + trigger_phase_increment_ v - 2 ^ 32
            + 1 * 2 ^ 32) at 1 by lia.
    rewrite Z.mod_add by lia. apply Z.mod_small. lia. }
  rewrite Hw.
  destruct (Z.ltb_spec
              (trigger_phase_ v + trigger_phase_increment_ v - 2 ^ 32)
              (trigger_phase_increment_ v)); [| lia].
  split; reflexivity.
Qed.

(** X13: How long a trigger envelope lasts.  With a nonzero increment and
    q = (2^32 - 1 - phase) / increment, the phase climbs by one increment
    on each of the first q ticks; tick q + 1 ends the envelope, and from
    then on, on every tick, the envelope is idle and the trigger output is
    the calibrated 0V code. *)
Theorem trigger_envelope_duration (v : Voice) (m : nat) :
  is_u32 (trigger_phase_ v) -> is_u32 (trigger_phase_increment_ v) ->
  0 < trigger_phase_increment_ v ->
  (Z.of_nat m
   <= (2 ^ 32 - 1 - trigger_phase_ v) / trigger_phase_increment_ v ->
   trigger_phase_ (refresh_n m v)
   = trigger_phase_ v + Z.of_nat m * trigger_phase_increment_ v /\
   trigger_phase_increment_ (refresh_n m v) = trigger_phase_increment_ v) /\
  ((2 ^ 32 - 1 - trigger_phase_ v) / trigger_phase_increment_ v
   < Z.of_nat m ->
   trigger_idle (refresh_n m v) /\
   trigger_dac_code (refresh_n m v) = at_index (calibrated_dac_code_ v) 3).
Proof.
  intros Hp Hi Hpos. pose proof Hp as Hp'. pose proof Hi as Hi'.
  unfold is_u32 in Hp', Hi'.
  set (q := (2 ^ 32 - 1 - trigger_phase_ v) / trigger_phase_increment_ v).
  assert (Hq0 : 0 <= q) by (apply Z.div_pos; lia).
  assert (Hq : q * trigger_phase_increment_ v
               <= 2 ^ 32 - 1 - trigger_phase_ v
               < (q + 1) * trigger_phase_increment_ v).
  { pose proof (Z.div_mod (2 ^ 32 - 1 - trigger_phase_ v)
                  (trigger_phase_increment_ v) ltac:(lia)) as Hdm.
    pose proof (Z.mod_pos_bound (2 ^ 32 - 1 - trigger_phase_ v)
                  (trigger_phase_increment_ v) Hpos) as Hm.
    fold q in Hdm. nia. }
  split.
  - intros Hm. apply trigger_in_progress; [exact Hp | exact Hi | nia].
  - intros Hm.
    destruct (trigger_in_progress (Z.to_nat q) v Hp Hi) as [Eq Ei]; [nia |].
    assert (Hidle : trigger_idle (refresh_n (S (Z.to_nat q)) v)).
    { change (refresh_n (S (Z.to_nat q)) v)
        with (Refresh (refresh_n (Z.to_nat q) v)).
      apply trigger_wrap_idles; rewrite ?Eq, ?Ei;
        [unfold is_u32; nia | exact Hi | exact Hpos | nia]. }
    replace m with ((m - S (Z.to_nat q)) + S (Z.to_nat q))%nat by lia.
    rewrite refresh_n_add.
    pose proof (refresh_n_trigger_idle (m - S (Z.to_nat q)) _ Hidle) as Hm'.
    split; [exact Hm' |].
    rewrite (trigger_idle_0V _ Hm'), !refresh_n_calibrated_dac_code.
    reflexivity.
Qed.

Lemma scaled_between (d value k : Z) :
  0 <= value < 2 ^ k -> 0 < k ->
  Z.min 0 d <= (d * value) ≫ k <= Z.max 0 d.
Proof.
  intros Hv Hk. rewrite Z.shiftr_div_pow2 by lia.
  assert (0 < 2 ^ k) by (apply Z.pow_pos_nonneg; lia).
  destruct (Z.le_gt_cases 0 d).
  - split.
    + transitivity 0; [lia | apply Z.div_pos; nia].
    + transitivity d; [apply Z.div_le_upper_bound; nia | lia].
  - split.
    + transitivity d; [lia | apply Z.div_le_lower_bound; nia].
    + transitivity 0; [| lia].
      apply Z.lt_succ_r, Z.div_lt_upper_bound; nia.
Qed.

(** X14: For the square and the linear shape the trigger output stays between
    the 0V code, [calibrated_dac_code_[3]], and the full-scale code,
    [calibrated_dac_code_[8]], whatever the phase, for 16-bit table
    entries and a velocity of at most 128. *)
Theorem trigger_dac_code_between (v : Voice) :
  Forall is_u16 (calibrated_dac_code_ v) ->
  is_u32 (trigger_phase_ v) -> 0 <= mod_velocity_ v <= 128 ->
  trigger_shape_ v = TRIGGER_SHAPE_SQUARE \/
  trigger_shape_ v = TRIGGER_SHAPE_LINEAR ->
  Z.min (at_index (calibrated_dac_code_ v) 3)
        (at_index (calibrated_dac_code_ v) 8)
  <= trigger_dac_code v
  <= Z.max (at_index (calibrated_dac_code_ v) 3)
           (at_index (calibrated_dac_code_ v) 8).
Proof.
  intros Ht Hp Hv Hshape. unfold trigger_dac_code.
  destruct (trigger_phase_ v <=? trigger_phase_increment_ v); [lia |].
  pose proof (at_index_u16 _ 3 Ht) as H3.
  pose proof (at_index_u16 _ 8 Ht) as H8.
  unfold is_u16 in H3, H8. unfold is_u32 in Hp.
  set (lo := at_index (calibrated_dac_code_ v) 3) in *.
  set (hi := at_index (calibrated_dac_code_ v) 8) in *.
  assert (Hshape_value :
    0 <= (if trigger_shape_ v =? TRIGGER_SHAPE_SQUARE then 32767
          else if trigger_shape_ v =? TRIGGER_SHAPE_LINEAR
               then wrap_i32 (wrap_u32 (32767 - (trigger_phase_ v ≫ 17)))
               else Interpolate824_s16
                      (waveform_table
                         (trigger_shape_ v - TRIGGER_SHAPE_EXPONENTIAL))
                      (trigger_phase_ v)) <= 32767).
  { destruct (Z.eqb_spec (trigger_shape_ v) TRIGGER_SHAPE_SQUARE); [lia |].
    destruct (Z.eqb_spec (trigger_shape_ v) TRIGGER_SHAPE_LINEAR);
      [| destruct Hshape; contradiction].
    assert (0 <= trigger_phase_ v ≫ 17 < 2 ^ 15).
    { rewrite Z.shiftr_div_pow2 by lia. split.
      - apply Z.div_pos; lia.
      - apply Z.div_lt_upper_bound; lia. }
    rewrite wrap_u32_id by (unfold is_u32; lia).
    rewrite wrap_i32_id by (unfold is_i32; lia). lia. }
  match type of Hshape_value with 0 <= ?e <= _ => set (shape := e) in * end.
  assert (Hcoef : 0 <= (if trigger_scale_ v then mod_velocity_ v ≪ 8
                        else 32768) <= 32768).
  { destruct (trigger_scale_ v); [| lia].
    rewrite Z.shiftl_mul_pow2 by lia. lia. }
  match type of Hcoef with 0 <= ?e <= _ => set (coef := e) in * end.
  rewrite (wrap_i32_id (shape * coef)) by (unfold is_i32; nia).
  assert (Hvalue : 0 <= (shape * coef) ≫ 15 < 2 ^ 15).
  { rewrite Z.shiftr_div_pow2 by lia. split.
    - apply Z.div_pos; nia.
    - apply Z.div_lt_upper_bound; nia. }
  set (value := (shape * coef) ≫ 15) in *.
  rewrite (wrap_i32_id (hi - lo)) by (unfold is_i32; lia).
  rewrite (wrap_i32_id ((hi - lo) * value)) by (unfold is_i32; nia).
  pose proof (scaled_between (hi - lo) value 15 Hvalue ltac:(lia)) as Hs.
  rewrite wrap_i32_id by (unfold is_i32; lia).
  rewrite wrap_u16_id by (unfold is_u16; lia). lia.
Qed.

End TriggerMore.

(** ** Controllers and published modulations *)

Section ControllersMore.

Context `{Resources}.

(** X15: A controller number other than the three recognised ones changes
    nothing at all. *)
Theorem ControlChange_ignores_unknown (v : Voice) (controller value : Z) :
  controller <> kCCModulationWheelMsb ->
  controller <> kCCBreathController ->
  controller <> kCCFootPedalMsb ->
  ControlChange v controller value = v.
Proof.
  intros Hw Hb Hf. unfold ControlChange.
  destruct (Z.eqb_spec controller kCCModulationWheelMsb); [contradiction |].
  destruct (Z.eqb_spec controller kCCBreathController); [contradiction |].
  destruct (Z.eqb_spec controller kCCFootPedalMsb); [contradiction |].
  destruct v; reflexivity.
Qed.

Lemma Refresh_mod_aux_length (v : Voice) :
  length (mod_aux_ (Refresh v)) = length (mod_aux_ v).
Proof. unfold Refresh. cbn [mod_aux_]. rewrite !length_insert. reflexivity. Qed.

Lemma Refresh_mod_aux_3_4 (v : Voice) (i : nat) :
  i = 3%nat \/ i = 4%nat ->
  mod_aux_ (Refresh v) !! i = mod_aux_ v !! i.
Proof.
  intros Hi. unfold Refresh. cbn [mod_aux_].
  rewrite !list_lookup_insert_ne by lia. reflexivity.
Qed.

Lemma refresh_n_mod_aux_3_4 (n : nat) (v : Voice) (i : nat) :
  i = 3%nat \/ i = 4%nat ->
  mod_aux_ (refresh_n n v) !! i = mod_aux_ v !! i.
Proof.
  intros Hi. induction n as [|n IH]; [reflexivity |].
  change (refresh_n (S n) v) with (Refresh (refresh_n n v)).
  rewrite Refresh_mod_aux_3_4 by exact Hi. exact IH.
Qed.

Lemma refresh_n_mod_wheel (n : nat) (v : Voice) :
  mod_wheel_ (refresh_n n v) = mod_wheel_ v.
Proof. induction n as [|n IH]; [reflexivity | exact IH]. Qed.

Lemma refresh_n_mod_aux_length (n : nat) (v : Voice) :
  length (mod_aux_ (refresh_n n v)) = length (mod_aux_ v).
Proof.
  induction n as [|n IH]; [reflexivity |].
  change (refresh_n (S n) v) with (Refresh (refresh_n n v)).
  rewrite Refresh_mod_aux_length. exact IH.
Qed.

Lemma Refresh_mod_aux_1 (v : Voice) :
  (1 < length (mod_aux_ v))%nat ->
  mod_aux_ (Refresh v) !! 1%nat = Some (wrap_u16 (mod_wheel_ v ≪ 9)).
Proof.
  intros Hlen. unfold Refresh. cbn [mod_aux_].
  rewrite !list_lookup_insert_ne by lia.
  apply list_lookup_insert_eq. rewrite length_insert. exact Hlen.
Qed.

Lemma shiftl9_7bit value :
  0 <= value < 128 -> wrap_u16 (value ≪ 9) = value * 512.
Proof.
  intros Hv. rewrite Z.shiftl_mul_pow2 by lia.
  apply wrap_u16_id. unfold is_u16. lia.
Qed.

(** X16: A 7-bit controller value reaches its channel multiplied by 512, with
    no wrap-around: the breath controller on mod_aux[3] and the foot
    pedal on mod_aux[4] at once, where no Refresh disturbs them, and the
    mod wheel on mod_aux[1] from the next Refresh on. *)
Theorem ControlChange_reaches_channel (v : Voice) (value : Z) (n : nat) :
  length (mod_aux_ v) = 8%nat -> 0 <= value < 128 ->
  (kCCBreathController <> kCCModulationWheelMsb ->
   mod_aux_ (refresh_n n (ControlChange v kCCBreathController value))
   !! 3%nat = Some (value * 512)) /\
  (kCCFootPedalMsb <> kCCModulationWheelMsb ->
   kCCFootPedalMsb <> kCCBreathController ->
   mod_aux_ (refresh_n n (ControlChange v kCCFootPedalMsb value))
   !! 4%nat = Some (value * 512)) /\
  mod_aux_ (refresh_n (S n) (ControlChange v kCCModulationWheelMsb value))
  !! 1%nat = Some (value * 512).
Proof.
  intros Hlen Hv. split; [| split].
  - intros Hne. rewrite refresh_n_mod_aux_3_4 by auto.
    unfold ControlChange. cbn [mod_aux_].
    destruct (Z.eqb_spec kCCBreathController kCCModulationWheelMsb);
      [contradiction |].
    rewrite Z.eqb_refl, list_lookup_insert_eq by lia.
    rewrite shiftl9_7bit by exact Hv. reflexivity.
  - intros Hne1 Hne2. rewrite refresh_n_mod_aux_3_4 by auto.
    unfold ControlChange. cbn [mod_aux_].
    destruct (Z.eqb_spec kCCFootPedalMsb kCCModulationWheelMsb);
      [contradiction |].
    destruct (Z.eqb_spec kCCFootPedalMsb kCCBreathController);
      [contradiction |].
    rewrite Z.eqb_refl, list_lookup_insert_eq by lia.
    rewrite shiftl9_7bit by exact Hv. reflexivity.
  - change (refresh_n (S n) (ControlChange v kCCModulationWheelMsb value))
      with (Refresh
              (refresh_n n (ControlChange v kCCModulationWheelMsb value))).
    rewrite Refresh_mod_aux_1.
    + rewrite refresh_n_mod_wheel. unfold ControlChange. cbn [mod_wheel_].
      rewrite Z.eqb_refl, shiftl9_7bit by exact Hv. reflexivity.
    + rewrite refresh_n_mod_aux_length. unfold ControlChange.
      cbn [mod_aux_]. rewrite Z.eqb_refl. lia.
Qed.

(** X17: What Refresh publishes on the five channels it writes, for MIDI-range
    inputs (7-bit velocity and mod wheel, 14-bit pitch bend): velocity and
    wheel times 512, pitch bend times 4, the LFO scaled by the wheel and
    the raw LFO, both offset by 32768; none of them wraps around. *)
Theorem Refresh_publishes_modulations (v : Voice) :
  length (mod_aux_ v) = 8%nat ->
  0 <= mod_velocity_ v < 128 -> 0 <= mod_wheel_ v < 128 ->
  0 <= mod_pitch_bend_ v < 16384 ->
  mod_aux_ (Refresh v) !! 0%nat = Some (mod_velocity_ v * 512) /\
  mod_aux_ (Refresh v) !! 1%nat = Some (mod_wheel_ v * 512) /\
  mod_aux_ (Refresh v) !! 5%nat = Some (mod_pitch_bend_ v * 4) /\
  mod_aux_ (Refresh v) !! 6%nat
  = Some (((lfo_triangle (lfo_phase_ (Refresh v)) * mod_wheel_ v) ≫ 7)
          + 32768) /\
  mod_aux_ (Refresh v) !! 7%nat
  = Some (lfo_triangle (lfo_phase_ (Refresh v)) + 32768) /\
  0 <= ((lfo_triangle (lfo_phase_ (Refresh v)) * mod_wheel_ v) ≫ 7) + 32768
    < 2 ^ 16 /\
  0 <= lfo_triangle (lfo_phase_ (Refresh v)) + 32768 < 2 ^ 16.
Proof.
  intros Hlen Hvel Hwheel Hbend.
  pose proof (lfo_triangle_range _ (Refresh_lfo_phase_u32 v)) as Hlfo.
  assert (Hscaled :
            -32768 <= (lfo_triangle (lfo_phase_ (Refresh v)) * mod_wheel_ v)
                      ≫ 7 <= 32767).
  { rewrite Z.shiftr_div_pow2 by lia. split.
    - apply Z.div_le_lower_bound; nia.
    - apply Z.lt_succ_r, Z.div_lt_upper_bound; nia. }
  assert (E6 : wrap_u16
                 (wrap_i32
                    ((wrap_i32
                        (lfo_triangle (lfo_phase_ (Refresh v)) * mod_wheel_ v)
                      ≫ 7) + 32768))
               = ((lfo_triangle (lfo_phase_ (Refresh v)) * mod_wheel_ v) ≫ 7)
                 + 32768).
  { rewrite (wrap_i32_id (_ * _)) by (unfold is_i32; nia).
    rewrite wrap_i32_id by (unfold is_i32; lia).
    apply wrap_u16_id. unfold is_u16. lia. }
  assert (E7 : wrap_u16 (wrap_i32 (lfo_triangle (lfo_phase_ (Refresh v))
                                   + 32768))
               = lfo_triangle (lfo_phase_ (Refresh v)) + 32768).
  { rewrite wrap_i32_id by (unfold is_i32; lia).
    apply wrap_u16_id. unfold is_u16. lia. }
  assert (E5 : wrap_u16 (wrap_u16 (mod_pitch_bend_ v) ≪ 2)
               = mod_pitch_bend_ v * 4).
  { rewrite (wrap_u16_id (mod_pitch_bend_ v)) by (unfold is_u16; lia).
    rewrite Z.shiftl_mul_pow2 by lia.
    apply wrap_u16_id. unfold is_u16. lia. }
  rewrite <- E6 at 1. rewrite <- E7 at 1. rewrite <- E5.
  rewrite <- (shiftl9_7bit (mod_velocity_ v)) by exact Hvel.
  rewrite <- (shiftl9_7bit (mod_wheel_ v)) by exact Hwheel.
  unfold Refresh at 1 2 3 4 5. cbn [mod_aux_ lfo_phase_].
  repeat split; try lia.
  - rewrite !list_lookup_insert_ne by lia.
    apply list_lookup_insert_eq. lia.
  - rewrite !list_lookup_insert_ne by lia.
    apply list_lookup_insert_eq. rewrite !length_insert. lia.
  - rewrite !list_lookup_insert_ne by lia.
    apply list_lookup_insert_eq. rewrite !length_insert. lia.
  - rewrite !list_lookup_insert_ne by lia.
    apply list_lookup_insert_eq. rewrite !length_insert. lia.
  - apply list_lookup_insert_eq. rewrite !length_insert. lia.
Qed.

End ControllersMore.

(** ** Typing over runs *)

Section TypingMore.

Context `{Resources}.




End TypingMore.

(** ** The increment of the linear glide *)

Section IncrementMore.

Context `{Resources}.

Lemma linear_increment_below_wrap (base d : Z) :
  is_u32 base -> 0 < d -> 1536 * (base ≫ 11) / d < 2 ^ 20 ->
  CONSTRAIN (linear_increment base d) 1 2147483647
  = Z.max 1 (2048 * (1536 * (base ≫ 11) / d)).
Proof.
  unfold is_u32. intros Hb Hd0 Hq0.
  assert (Hs : 0 <= base ≫ 11 < 2 ^ 21).
  { rewrite Z.shiftr_div_pow2 by lia. split.
    - apply Z.div_pos; lia.
    - apply Z.div_lt_upper_bound; lia. }
  unfold linear_increment.
  rewrite (wrap_u32_id (1536 * _)) by (unfold is_u32; lia).
  assert (0 <= 1536 * (base ≫ 11) / d) by (apply Z.div_pos; lia).
  rewrite Z.shiftl_mul_pow2 by lia.
  rewrite wrap_u32_id by (unfold is_u32; lia).
  unfold CONSTRAIN. rewrite Z.gtb_ltb.
  destruct (Z.ltb_spec (1536 * (base ≫ 11) / d * 2 ^ 11) 1); [lia |].
  destruct (Z.ltb_spec 2147483647 (1536 * (base ≫ 11) / d * 2 ^ 11)); lia.
Qed.

Lemma NoteOn_linear_branch (v : Voice) (note velocity portamento : Z)
    (trigger : bool) :
  50 < portamento ->
  portamento_phase_increment_ (NoteOn v note velocity portamento trigger)
  = CONSTRAIN
      (linear_increment (lut_portamento_increments ((portamento - 51) ≪ 1))
         (glide_delta note (note_portamento_ v)))
      1 2147483647.
Proof.
  intros Hp. unfold NoteOn. cbn [portamento_phase_increment_].
  destruct (Z.leb_spec portamento 50); [lia |].
  destruct (Z.eqb_spec portamento 0); [lia | reflexivity].
Qed.

(** X19: On the linear branch of NoteOn (portamento > 50), with
    q = 1536 * (base_increment >> 11) / (distance + 1) below 2^20 nothing
    wraps and the increment is max(1, 2048 * q); a NoteOn to a note at
    least as far from the current pitch gets an increment that is no
    larger, so a longer glide takes a smaller step per tick. *)
Theorem NoteOn_linear_increment_closed_form (v : Voice)
    (note far_note velocity portamento : Z) (trigger : bool) :
  50 < portamento ->
  Z.abs (note - note_portamento_ v) <= Z.abs (far_note - note_portamento_ v) ->
  Z.abs (far_note - note_portamento_ v) < 2 ^ 31 - 1 ->
  1536 * (lut_portamento_increments ((portamento - 51) ≪ 1) ≫ 11)
  / (Z.abs (note - note_portamento_ v) + 1) < 2 ^ 20 ->
  portamento_phase_increment_ (NoteOn v note velocity portamento trigger)
  = Z.max 1
      (2048 * (1536 * (lut_portamento_increments ((portamento - 51) ≪ 1) ≫ 11)
               / (Z.abs (note - note_portamento_ v) + 1))) /\
  portamento_phase_increment_ (NoteOn v far_note velocity portamento trigger)
  <= portamento_phase_increment_ (NoteOn v note velocity portamento trigger).
Proof.
  intros Hp Hfar Hrange Hq.
  pose proof (lut_portamento_increments_u32 ((portamento - 51) ≪ 1)) as Hb.
  set (base := lut_portamento_increments ((portamento - 51) ≪ 1)) in *.
  assert (Hs : 0 <= base ≫ 11).
  { unfold is_u32 in Hb. rewrite Z.shiftr_div_pow2 by lia.
    apply Z.div_pos; lia. }
  assert (Hmono : 1536 * (base ≫ 11)
                  / (Z.abs (far_note - note_portamento_ v) + 1)
                  <= 1536 * (base ≫ 11)
                     / (Z.abs (note - note_portamento_ v) + 1)).
  { apply Z.div_le_compat_l; lia. }
  rewrite !NoteOn_linear_branch by exact Hp. fold base.
  rewrite !glide_delta_distance by lia.
  rewrite !linear_increment_below_wrap by (auto; lia).
  split; [reflexivity | lia].
Qed.

End IncrementMore.

(** ** Runs: the LFO, the gate, and pitches that hold *)

Section RunsMore.

Context `{Resources}.

Lemma step_lfo_increment (v : Voice) (e : Event) :
  lfo_increment (step v e) = lfo_increment v.
Proof. destruct e; reflexivity. Qed.

Lemma step_lfo_phase (v : Voice) (e : Event) :
  lfo_phase_ (step v e)
  = if is_refresh e then wrap_u32 (lfo_phase_ v + lfo_increment v)
    else lfo_phase_ v.
Proof.
  destruct e; try reflexivity.
  simpl step. unfold Refresh, lfo_increment. cbn [lfo_phase_ is_refresh].
  destruct (modulation_rate_ v <? 100); reflexivity.
Qed.

(** X20: The vibrato LFO runs free: after any sequence of NoteOn, NoteOff,
    ControlChange and Refresh its phase is the initial phase plus one
    increment per Refresh, modulo 2^32; note and controller events neither
    reset nor shift it. *)
Theorem lfo_runs_free (v : Voice) (events : list Event) :
  is_u32 (lfo_phase_ v) ->
  lfo_phase_ (run v events)
  = wrap_u32 (lfo_phase_ v + Z.of_nat (ticks events) * lfo_increment v).
Proof.
  revert v. induction events as [|e events IH]; intros v Hp.
  - simpl. rewrite Z.add_0_r. symmetry. apply wrap_u32_id, Hp.
  - unfold run in *. simpl fold_left.
    rewrite IH, step_lfo_increment, step_lfo_phase.
    + destruct e; cbn [is_refresh ticks]; try reflexivity.
      unfold wrap_u32. rewrite Zplus_mod_idemp_l. f_equal. lia.
    + rewrite step_lfo_phase.
      destruct (is_refresh e); [apply wrap_u32_range | exact Hp].
Qed.

Lemma step_gate (v : Voice) (e : Event) :
  gate_ (step v e)
  = if is_note_on e then true else if is_note_off e then false else gate_ v.
Proof. destruct e; reflexivity. Qed.

(** X21: The gate follows the note events only: a run without NoteOn and
    NoteOff keeps it; after a NoteOn it is true through any run without
    NoteOff; after a NoteOff it is false through any run without
    NoteOn. *)
Theorem gate_follows_note_events (v : Voice) (events : list Event)
    (note velocity portamento : Z) (trigger : bool) :
  (Forall (fun e => is_note_on e = false /\ is_note_off e = false) events ->
   gate_ (run v events) = gate_ v) /\
  (Forall (fun e => is_note_off e = false) events ->
   gate_ (run (NoteOn v note velocity portamento trigger) events) = true) /\
  (Forall (fun e => is_note_on e = false) events ->
   gate_ (run (NoteOff v) events) = false).
Proof.
  split; [| split].
  - intros Hev. revert v.
    induction Hev as [|e events [Hon Hoff] _ IH]; intros v; [reflexivity |].
    unfold run in *. simpl fold_left.
    rewrite IH, step_gate, Hon, Hoff. reflexivity.
  - intros Hev.
    assert (Hgen : forall u, gate_ u = true -> gate_ (run u events) = true).
    { induction Hev as [|e events Hoff _ IH]; intros u Hu; [exact Hu |].
      unfold run in *. simpl fold_left. apply IH.
      rewrite step_gate, Hoff, Hu. destruct (is_note_on e); reflexivity. }
    apply Hgen. reflexivity.
  - intros Hev.
    assert (Hgen : forall u, gate_ u = false -> gate_ (run u events) = false).
    { induction Hev as [|e events Hon _ IH]; intros u Hu; [exact Hu |].
      unfold run in *. simpl fold_left. apply IH.
      rewrite step_gate, Hon, Hu. destruct (is_note_off e); reflexivity. }
    apply Hgen. reflexivity.
Qed.

Lemma Refresh_source_is_target (v : Voice) :
  note_source_ v = note_target_ v -> is_i32 (note_target_ v) ->
  note_source_ (Refresh v) = note_target_ (Refresh v) /\
  note_target_ (Refresh v) = note_target_ v /\
  note_portamento_ (Refresh v) = note_target_ v.
Proof.
  intros Hs Ht. unfold Refresh.
  cbn [note_source_ note_target_ note_portamento_]. rewrite Hs.
  match goal with
  | |- context [if ?w then note_target_ v else note_target_ v] =>
      replace (if w then note_target_ v else note_target_ v)
        with (note_target_ v) by (destruct w; reflexivity)
  end.
  repeat split. apply glide_at_rest, Ht.
Qed.

Lemma refresh_n_source_is_target (n : nat) (v : Voice) :
  note_source_ v = note_target_ v -> is_i32 (note_target_ v) ->
  note_source_ (refresh_n n v) = note_target_ (refresh_n n v) /\
  note_target_ (refresh_n n v) = note_target_ v /\
  note_portamento_ (refresh_n (S n) v) = note_target_ v.
Proof.
  intros Hs Ht.
  assert (Hinv : note_source_ (refresh_n n v) = note_target_ (refresh_n n v)
                 /\ note_target_ (refresh_n n v) = note_target_ v).
  { induction n as [|n [IHs IHt]]; [split; [exact Hs | reflexivity] |].
    change (refresh_n (S n) v) with (Refresh (refresh_n n v)).
    destruct (Refresh_source_is_target (refresh_n n v) IHs)
      as (Hs' & Ht' & _); [rewrite IHt; exact Ht |].
    split; [exact Hs' | rewrite Ht'; exact IHt]. }
  destruct Hinv as [Hsn Htn]. split; [exact Hsn |]. split; [exact Htn |].
  change (refresh_n (S n) v) with (Refresh (refresh_n n v)).
  destruct (Refresh_source_is_target (refresh_n n v) Hsn) as (_ & _ & Hp);
    [rewrite Htn; exact Ht |].
  rewrite Hp. exact Htn.
Qed.

(** X22: Pitches that hold.  After Init the interpolated pitch is middle C
    (60 << 7) on every Refresh tick, whatever the voice held before; and
    after a NoteOn with portamento zero it is the new note on every tick,
    from the first one on, whatever the portamento tables hold. *)
Theorem pitch_holds_without_glide (v : Voice) (reset_calibration : bool)
    (note velocity : Z) (trigger : bool) (n : nat) :
  note_portamento_ (refresh_n (S n) (Init v reset_calibration)) = 7680 /\
  (is_i16 note ->
   note_portamento_ (refresh_n (S n) (NoteOn v note velocity 0 trigger))
   = note).
Proof.
  split.
  - destruct (refresh_n_source_is_target n (Init v reset_calibration))
      as (_ & _ & Hp); [reflexivity | |exact Hp].
    vm_compute. split; [discriminate | reflexivity].
  - intros Hn.
    destruct (refresh_n_source_is_target n (NoteOn v note velocity 0 trigger))
      as (_ & _ & Hp); [reflexivity | | exact Hp].
    change (note_target_ (NoteOn v note velocity 0 trigger)) with note.
    unfold is_i16, is_i32 in *. lia.
Qed.

End RunsMore.

(** ** The further properties on concrete voices *)

Section MoreExamples.

Local Existing Instance example_resources.

Lemma NoteToDacCode_within_bracket_witness :
  49453 <= NoteToDacCode default_calibration 1000 <= 54586.
Proof.
  apply (NoteToDacCode_within_bracket default_calibration 1000).
  exact default_calibration_u16.
Defined.

Lemma NoteToDacCode_at_octave_witness :
  NoteToDacCode rising_calibration (5 * kOctave) = 30000.
Proof.
  apply (NoteToDacCode_at_octave rising_calibration 5).
  - exact rising_calibration_u16.
  - split; [lia | reflexivity].
Defined.


Lemma Init_default_quantization_witness :
  NoteToDacCode (calibrated_dac_code_ (Init zero_voice true)) 7687 = 28898.
Proof.
  rewrite (Init_default_quantization zero_voice 7687);
    [reflexivity | reflexivity | reflexivity |].
  split; [lia | reflexivity].
Defined.

Lemma Calibrate_installs_table_witness :
  calibrated_dac_code_ (Calibrate power_on rising_calibration)
  = rising_calibration /\
  NoteToDacCode (calibrated_dac_code_ (Calibrate power_on rising_calibration))
                7680
  = NoteToDacCode rising_calibration 7680.
Proof.
  destruct (Calibrate_installs_table power_on rising_calibration)
    as (_ & _ & Hwhole & _).
  destruct Hwhole as [Htable Hcode]; [reflexivity | reflexivity |].
  split; [exact Htable | apply Hcode].
Defined.

Lemma published_code_follows_note_witness :
  note_dac_code_
    (Refresh (run (Refresh power_on)
                  [EvNoteOn 9216 100 60 true; EvRefresh;
                   EvControlChange 1 64]))
  = NoteToDacCode default_calibration
      (note_ (Refresh (run (Refresh power_on)
                           [EvNoteOn 9216 100 60 true; EvRefresh;
                            EvControlChange 1 64]))).
Proof.
  assert (Hc : code_current (Refresh power_on)) by (right; reflexivity).
  destruct (published_code_follows_note (Refresh power_on)
              [EvNoteOn 9216 100 60 true; EvRefresh; EvControlChange 1 64]
              Hc) as (_ & _ & Hcode).
  exact Hcode.
Defined.

Lemma Refresh_skips_unchanged_pitch_witness :
  note_dac_code_
    (Refresh (Calibrate (refresh_n 2 power_on) rising_calibration))
  = 28921 /\
  NoteToDacCode rising_calibration
    (note_ (Refresh (Calibrate (refresh_n 2 power_on) rising_calibration)))
  = 30000.
Proof.
  split; [| vm_compute; reflexivity].
  destruct (Refresh_skips_unchanged_pitch
              (Calibrate (refresh_n 2 power_on) rising_calibration))
    as [Hskip _].
  assert (Hn : note_ (Refresh (Calibrate (refresh_n 2 power_on)
                                 rising_calibration))
               = note_ (Calibrate (refresh_n 2 power_on) rising_calibration))
    by (vm_compute; reflexivity).
  assert (Hd : dirty_ (Calibrate (refresh_n 2 power_on) rising_calibration)
               = false) by (vm_compute; reflexivity).
  rewrite (Hskip Hn Hd). vm_compute. reflexivity.
Defined.

Lemma settled_voice_holds_target_witness :
  note_portamento_ (refresh_n 1000 (refresh_n 2 power_on)) = 7680.
Proof.
  assert (Hs : settled (refresh_n 2 power_on))
    by (repeat split; reflexivity).
  assert (Ht : is_i32 (note_target_ (refresh_n 2 power_on)))
    by (vm_compute; split; [discriminate | reflexivity]).
  destruct (settled_voice_holds_target (refresh_n 2 power_on) 999 Hs Ht)
    as (_ & _ & Hp).
  exact Hp.
Defined.

Lemma glide_duration_witness :
  portamento_phase_increment_
    (refresh_n 650 (NoteOn power_on 9216 100 60 false)) = 6600704 /\
  note_portamento_ (refresh_n 651 (NoteOn power_on 9216 100 60 false))
  = 9216.
Proof.
  assert (Hp : is_u32 (portamento_phase_
                         (NoteOn power_on 9216 100 60 false)))
    by (vm_compute; split; [discriminate | reflexivity]).
  assert (Hi : is_u32 (portamento_phase_increment_
                         (NoteOn power_on 9216 100 60 false)))
    by (vm_compute; split; [discriminate | reflexivity]).
  assert (Hpos : 0 < portamento_phase_increment_
                       (NoteOn power_on 9216 100 60 false))
    by (vm_compute; reflexivity).
  assert (Ht : is_i32 (note_target_ (NoteOn power_on 9216 100 60 false)))
    by (vm_compute; split; [discriminate | reflexivity]).
  split.
  - destruct (glide_duration (NoteOn power_on 9216 100 60 false) 650
                Hp Hi Hpos Ht) as [Hearly _].
    destruct Hearly as [Hinc _]; [vm_compute; discriminate |].
    exact Hinc.
  - destruct (glide_duration (NoteOn power_on 9216 100 60 false) 651
                Hp Hi Hpos Ht) as [_ Hlate].
    destruct Hlate as [_ Hnote]; [vm_compute; reflexivity |].
    exact Hnote.
Defined.

Lemma Refresh_pitch_between_witness :
  7680 <= note_portamento_ (Refresh mid_glide) <= 9216.
Proof.
  apply (Refresh_pitch_between mid_glide).
  - vm_compute. split; [discriminate | reflexivity].
  - vm_compute. split; [discriminate | reflexivity].
  - vm_compute. discriminate.
Defined.

Lemma Refresh_neutral_controllers_witness :
  note_ (Refresh power_on) = note_portamento_ (Refresh power_on).
Proof.
  destruct (Refresh_neutral_controllers power_on) as [Hn _].
  - reflexivity.
  - right. reflexivity.
  - rewrite Hn. reflexivity.
Defined.

Lemma Refresh_modulation_depth_witness :
  Z.abs (note_ (Refresh power_on)
         - (note_portamento_ (Refresh power_on) + tuning_ power_on))
  <= 256.
Proof.
  apply (Refresh_modulation_depth power_on).
  - vm_compute. split; [discriminate | reflexivity].
  - vm_compute. split; [discriminate | reflexivity].
  - vm_compute. split; [discriminate | reflexivity].
  - vm_compute. split; [discriminate | reflexivity].
  - vm_compute. discriminate.
  - vm_compute. discriminate.
Defined.

Lemma trigger_envelope_duration_witness :
  trigger_phase_ (refresh_n 10 gated) = 4294967290 /\
  trigger_dac_code (refresh_n 11 gated) = 39187.
Proof.
  assert (Hp : is_u32 (trigger_phase_ gated))
    by (vm_compute; split; [discriminate | reflexivity]).
  assert (Hi : is_u32 (trigger_phase_increment_ gated))
    by (vm_compute; split; [discriminate | reflexivity]).
  assert (Hpos : 0 < trigger_phase_increment_ gated)
    by (vm_compute; reflexivity).
  split.
  - destruct (trigger_envelope_duration gated 10 Hp Hi Hpos) as [Hearly _].
    destruct Hearly as [Hphase _]; [vm_compute; discriminate |].
    rewrite Hphase. reflexivity.
  - destruct (trigger_envelope_duration gated 11 Hp Hi Hpos) as [_ Hlate].
    destruct Hlate as [_ Hcode]; [vm_compute; reflexivity |].
    rewrite Hcode. reflexivity.
Defined.

Lemma trigger_dac_code_between_witness :
  13522 <= trigger_dac_code (refresh_n 3 gated) <= 39187.
Proof.
  apply (trigger_dac_code_between (refresh_n 3 gated)).
  - exact default_calibration_u16.
  - vm_compute. split; [discriminate | reflexivity].
  - vm_compute. split; discriminate.
  - left. reflexivity.
Defined.

Lemma ControlChange_ignores_unknown_witness :
  ControlChange gated 7 100 = gated.
Proof.
  apply (ControlChange_ignores_unknown gated 7 100); discriminate.
Defined.

Lemma ControlChange_reaches_channel_witness :
  mod_aux_ (refresh_n 2 (ControlChange power_on 2 64)) !! 3%nat = Some 32768
  /\ mod_aux_ (refresh_n 3 (ControlChange power_on 1 127)) !! 1%nat
     = Some 65024.
Proof.
  assert (Hlen : length (mod_aux_ power_on) = 8%nat) by reflexivity.
  split.
  - destruct (ControlChange_reaches_channel power_on 64 2 Hlen ltac:(lia))
      as (Hbreath & _ & _).
    apply Hbreath. discriminate.
  - destruct (ControlChange_reaches_channel power_on 127 2 Hlen ltac:(lia))
      as (_ & _ & Hwheel).
    exact Hwheel.
Defined.

Lemma Refresh_publishes_modulations_witness :
  mod_aux_ (Refresh gated) !! 0%nat = Some 51200 /\
  mod_aux_ (Refresh gated) !! 5%nat = Some 32768.
Proof.
  assert (Hlen : length (mod_aux_ gated) = 8%nat) by reflexivity.
  assert (Hvel : 0 <= mod_velocity_ gated < 128)
    by (vm_compute; split; [discriminate | reflexivity]).
  assert (Hwheel : 0 <= mod_wheel_ gated < 128)
    by (vm_compute; split; [discriminate | reflexivity]).
  assert (Hbend : 0 <= mod_pitch_bend_ gated < 16384)
    by (vm_compute; split; [discriminate | reflexivity]).
  destruct (Refresh_publishes_modulations gated Hlen Hvel Hwheel Hbend)
    as (H0 & _ & H5 & _).
  split; [exact H0 | exact H5].
Defined.


Lemma NoteOn_linear_increment_closed_form_witness :
  portamento_phase_increment_ (NoteOn power_on 9216 100 60 false) = 6600704
  /\ portamento_phase_increment_ (NoteOn power_on 10752 100 60 false)
     <= portamento_phase_increment_ (NoteOn power_on 9216 100 60 false).
Proof.
  destruct (NoteOn_linear_increment_closed_form power_on 9216 10752 100 60
              false) as [Hform Hle].
  - lia.
  - vm_compute. discriminate.
  - vm_compute. reflexivity.
  - vm_compute. reflexivity.
  - split; [rewrite Hform; reflexivity | exact Hle].
Defined.

Lemma lfo_runs_free_witness :
  lfo_phase_
    (run power_on
         [EvRefresh; EvNoteOn 9216 100 60 true; EvRefresh; EvNoteOff;
          EvControlChange 1 64; EvRefresh])
  = 268434.
Proof.
  rewrite (lfo_runs_free power_on).
  - reflexivity.
  - vm_compute. split; [discriminate | reflexivity].
Defined.

Lemma gate_follows_note_events_witness :
  gate_ (run (NoteOn power_on 7680 100 0 true)
             [EvRefresh; EvControlChange 1 64; EvNoteOn 9216 90 60 true;
              EvRefresh]) = true /\
  gate_ (run (NoteOff gated) [EvRefresh; EvControlChange 2 10]) = false.
Proof.
  split.
  - destruct (gate_follows_note_events power_on
                [EvRefresh; EvControlChange 1 64; EvNoteOn 9216 90 60 true;
                 EvRefresh] 7680 100 0 true) as (_ & Hon & _).
    apply Hon. repeat constructor.
  - destruct (gate_follows_note_events gated
                [EvRefresh; EvControlChange 2 10] 0 0 0 false)
      as (_ & _ & Hoff).
    apply Hoff. repeat constructor.
Defined.

Lemma pitch_holds_without_glide_witness :
  note_portamento_ (refresh_n 500 (NoteOn mid_glide 6144 100 0 true)) = 6144.
Proof.
  destruct (pitch_holds_without_glide mid_glide true 6144 100 true 499)
    as [_ Hjump].
  apply Hjump. unfold is_i16. lia.
Defined.

End MoreExamples.
